(** * aco2gpl: Photoshop swatch file (.aco) to GIMP palette converter

    A shallow embedding of [aco2gpl.c] and the properties of its
    word reader, record parser, driver and text emitter.

    The C program is a sequence of blocking reads from standard input,
    diagnostics on the error stream and one pass of writes to standard
    output; it leaves through [exit(1)] from three places.  It is embedded
    as functions in a small state-and-exit monad over a [world] record. *)

From Stdlib Require Import ZArith Ascii Strings.Byte DecimalString Lia.
From stdpp Require Import base list strings.

Local Open Scope Z_scope.

(** ** The process state *)

(** Standard input is the list of bytes not yet consumed; the two output
    streams are the text written so far; [allocs] counts the calls made to
    the allocator. *)
Record world : Type := World {
  stdin : list byte;
  stdout : string;
  stderr : string;
  allocs : nat
}.

Definition set_stdin (w : world) (i : list byte) : world :=
  World i (stdout w) (stderr w) (allocs w).
Definition add_stdout (w : world) (s : string) : world :=
  World (stdin w) (stdout w +:+ s) (stderr w) (allocs w).
Definition add_stderr (w : world) (s : string) : world :=
  World (stdin w) (stdout w) (stderr w +:+ s) (allocs w).
Definition bump_allocs (w : world) : world :=
  World (stdin w) (stdout w) (stderr w) (S (allocs w)).

(** What the C source leaves to the C library and to the machine. *)
Record platform : Type := Platform {
  (** whether the [k]-th allocation of the run, of [n] bytes, succeeds *)
  malloc_ok : nat -> Z -> bool;
  (** the content of the two-byte stack buffer of [readword] on entry *)
  stale_buf : byte * byte;
  (** what [printf] writes for a null pointer given to [%s] *)
  printf_null : string;
  sizeof_aco : Z;
  sizeof_acoentry : Z;
  (** [SIZE_MAX + 1] *)
  size_modulus : Z
}.

(** A 64-bit glibc system on which every request below 2^47 bytes is
    granted. *)
Definition glibc_lp64 : platform :=
  Platform (fun _ n => n <? 2 ^ 47) (x00, x00) "(null)" 16 16 (2 ^ 64).

(** The result of running a piece of the program: it returns a value,
    leaves through [exit], or does something the C language leaves
    undefined. *)
Inductive outcome (A : Type) : Type :=
| Ret (a : A) (w : world)
| Exit (status : Z) (w : world)
| Undefined (w : world).
Arguments Ret {A} a w.
Arguments Exit {A} status w.
Arguments Undefined {A} w.

Definition M (A : Type) : Type := world -> outcome A.

Definition ret {A} (a : A) : M A := fun w => Ret a w.

Definition bind {A B} (m : M A) (k : A -> M B) : M B := fun w =>
  match m w with
  | Ret a w' => k a w'
  | Exit s w' => Exit s w'
  | Undefined w' => Undefined w'
  end.

Notation "x <- m ;; k" := (bind m (fun x => k))
  (at level 100, m at next level, k at level 200, right associativity).

Definition exit {A} (status : Z) : M A := fun w => Exit status w.
Definition undefined {A} : M A := fun w => Undefined w.

(** [fprintf(stderr, ...)] and [printf(...)] once the text is formatted. *)
Definition eputs (s : string) : M unit := fun w => Ret tt (add_stderr w s).
Definition puts (s : string) : M unit := fun w => Ret tt (add_stdout w s).

Definition nl : string := String "010"%char EmptyString.

(** [%d] *)
Definition dec (z : Z) : string := NilZero.string_of_int (Z.to_int z).

Definition byte_val (b : byte) : Z := Z.of_N (Byte.to_N b).

(** ** The data model *)

(** [struct acoentry]; a null [name] is [None]. *)
Record acoentry : Type := AcoEntry {
  r : Z;
  g : Z;
  b : Z;
  name : option string
}.

(** [struct aco].  [color] is the block obtained from the allocator, one
    slot per index below [len]; a slot nothing was stored into is [None]. *)
Record aco : Type := Aco {
  ver : Z;
  len : Z;
  color : list (option acoentry)
}.

Section Program.

Variable P : platform.

(** ** Allocation *)

Definition malloc (n : Z) : M bool := fun w =>
  Ret (malloc_ok P (allocs w) n) (bump_allocs w).

Definition acomalloc (n : Z) : M unit :=
  ok <- malloc n;;
  if ok then ret tt
  else _ <- eputs ("Out of memory!" +:+ nl);; exit 1.

(** ** Reading words *)

(** [fread(buf, 1, 2, fp)]: the number of bytes stored and the buffer
    afterwards. *)
Definition fread2 (buf : byte * byte) : M (Z * (byte * byte)) := fun w =>
  match stdin w with
  | [] => Ret (0, buf) w
  | [b0] => Ret (1, (b0, snd buf)) (set_stdin w [])
  | b0 :: b1 :: rest => Ret (2, (b0, b1)) (set_stdin w rest)
  end.

Definition readword : M Z :=
  rb <- fread2 (stale_buf P);;
  let '(retval, buf) := rb in
  if retval =? 0 then ret (-1)
  else ret (Z.lor (byte_val (snd buf)) (Z.shiftl (byte_val (fst buf)) 8)).

Definition mustreadword : M Z :=
  w <- readword;;
  if w =? -1 then _ <- eputs ("Unexpected end of file!" +:+ nl);; exit 1
  else ret w.

(** [for (j = 0; j < n; j++) mustreadword(fp);] *)
Fixpoint skipwords (n : nat) : M unit :=
  match n with
  | O => ret tt
  | S n' => _ <- mustreadword;; skipwords n'
  end.

(** ** The colour record parser *)

(** What [convertcolor] hands back: a non-zero return value, or zero
    together with the three results and the name buffer ([None] while
    nothing was stored into the buffer). *)
Inductive converted : Type :=
| Skipped
| Converted (r g b : Z) (name : option string).

Definition char_of_int (c : Z) : ascii := ascii_of_N (Z.to_N c).

(** The [while (namelen > 0)] loop of [convertcolor]: [n] is [namelen] on
    entry, [buf] the characters stored so far through [name]. *)
Fixpoint readname (n : nat) (buflen : Z) (buf : string) : M string :=
  match n with
  | O => ret buf
  | S n' =>
      c <- mustreadword;;
      let c := if 255 <? c then 32 else c in
      if 1 <? buflen
      then readname n' (buflen - 1) (buf +:+ String (char_of_int c) EmptyString)
      else readname n' buflen buf
  end.

Definition NUL : ascii := "000"%char.

Definition convertcolor (ver : Z) (buflen : Z) : M converted :=
  cspace <- mustreadword;;
  if negb (cspace =? 0) then
    _ <- skipwords 4;;
    _ <- (if ver =? 2 then
            _ <- mustreadword;;
            namelen <- mustreadword;;
            skipwords (Z.to_nat namelen)
          else ret tt);;
    _ <- eputs ("Non RGB color (colorspace " +:+ dec cspace +:+ ") skipped" +:+ nl);;
    ret Skipped
  else
    rw <- mustreadword;;
    gw <- mustreadword;;
    bw <- mustreadword;;
    _ <- mustreadword;;
    if ver =? 1 then ret (Converted (rw ÷ 256) (gw ÷ 256) (bw ÷ 256) None)
    else
      _ <- mustreadword;;
      namelen <- mustreadword;;
      buf <- readname (Z.to_nat (namelen - 1)) buflen EmptyString;;
      _ <- mustreadword;;
      ret (Converted (rw ÷ 256) (gw ÷ 256) (bw ÷ 256)
             (Some (buf +:+ String NUL EmptyString))).

(** ** The record-set driver *)

(** The C string held in a buffer: the characters before the first NUL. *)
Fixpoint c_str (buf : string) : string :=
  match buf with
  | EmptyString => EmptyString
  | String c rest => if Ascii.eqb c NUL then EmptyString else String c (c_str rest)
  end.

(** [strdup]: a fresh copy, or a null pointer when the allocation fails. *)
Definition strdup (buf : string) : M (option string) :=
  let s := c_str buf in
  ok <- malloc (Z.of_nat (String.length s) + 1);;
  ret (if ok then Some s else None).

(** An [unsigned char] field assigned from an [int]. *)
Definition to_uchar (z : Z) : Z := z mod 256.

(** The [for (j = 0; j < colors; j++)] loop of [readaco] with [n]
    iterations left. *)
Fixpoint readaco_colors (n : nat) (ver j : Z) (color : list (option acoentry))
  : M (list (option acoentry)) :=
  match n with
  | O => ret color
  | S n' =>
      c <- convertcolor ver 256;;
      match c with
      | Skipped => readaco_colors n' ver (j + 1) color
      | Converted r g b name =>
          let e := AcoEntry (to_uchar r) (to_uchar g) (to_uchar b) None in
          let color := <[Z.to_nat j := Some e]> color in
          if ver =? 2 then
            match name with
            | Some buf =>
                nm <- strdup buf;;
                readaco_colors n' ver (j + 1)
                  (<[Z.to_nat j := Some (AcoEntry (to_uchar r) (to_uchar g) (to_uchar b) nm)]> color)
            | None => undefined
            end
          else readaco_colors n' ver (j + 1) color
      end
  end.

(** An [int] converted to [size_t] and a product in [size_t]. *)
Definition to_size_t (z : Z) : Z := z mod size_modulus P.
Definition size_mul (a b : Z) : Z := to_size_t (a * to_size_t b).

Definition readaco : M (option aco) :=
  ver <- readword;;
  if ver =? -1 then ret None
  else
    _ <- eputs "reading ACO stream version:";;
    _ <- (if ver =? 1 then eputs (" 1 (photoshop < 7.0)" +:+ nl)
          else if ver =? 2 then eputs (" 2 (photoshop >= 7.0)" +:+ nl)
          else
            _ <- eputs ("Unknown ACO file version " +:+ dec ver +:+ ". Exiting..." +:+ nl);;
            exit 1);;
    colors <- readword;;
    _ <- eputs (dec colors +:+ " colors in this file" +:+ nl);;
    _ <- acomalloc (sizeof_aco P);;
    _ <- acomalloc (size_mul (sizeof_acoentry P) colors);;
    color <- readaco_colors (Z.to_nat colors) ver 0
               (replicate (Z.to_nat colors) None);;
    ret (Some (Aco ver colors color)).

(** ** The text emitter *)

Definition cols : Z := 4.

Definition header : string :=
  "GIMP Palette" +:+ nl +:+ "Name: Untitled" +:+ nl +:+ "Columns: 16" +:+ nl +:+ "#".

(** The text of one [printf("\n%d %d %d %s", r, g, b, name)]. *)
Definition color_line (e : acoentry) : string :=
  nl +:+ dec (r e) +:+ " " +:+ dec (g e) +:+ " " +:+ dec (b e) +:+ " " +:+
  match name e with
  | Some s => s
  | None => printf_null P
  end.

(** The body of the inner loop for [aco->color[k]]; [k] is never negative.
    Reading a slot nothing was stored into, and handing its pointer to
    [printf], is undefined. *)
Definition print_color (a : aco) (k : Z) : M unit :=
  match color a !! Z.to_nat k with
  | Some (Some e) => puts (color_line e)
  | _ => undefined
  end.

(** The [for (i = 0; i < cols; i++)] loop with [n] iterations left. *)
Fixpoint gengpl_row (n : nat) (a : aco) (j i : Z) : M unit :=
  match n with
  | O => ret tt
  | S n' =>
      if j + i =? len a then ret tt
      else _ <- print_color a (j + i);; gengpl_row n' a j (i + 1)
  end.

(** The [for (j = 0; j < aco->len; j += cols)] loop.  [fuel] bounds the
    number of iterations; [gengpl] supplies more than the loop can use
    (see [gengpl_rows_fuel]). *)
Fixpoint gengpl_rows (fuel : nat) (a : aco) (j : Z) : M unit :=
  match fuel with
  | O => ret tt
  | S fuel' =>
      if j <? len a
      then _ <- gengpl_row (Z.to_nat cols) a j 0;; gengpl_rows fuel' a (j + cols)
      else ret tt
  end.

Definition gengpl (a : aco) : M unit :=
  _ <- puts header;;
  gengpl_rows (Z.to_nat (len a)) a 0.

(** ** The program *)

Definition main : M Z :=
  aco1 <- readaco;;
  aco2 <- readaco;;
  _ <- eputs ("Generating GPL..." +:+ nl);;
  _ <- match aco2 with
       | Some a2 => gengpl a2
       | None =>
           match aco1 with
           | Some a1 => gengpl a1
           | None => eputs "No data!"
           end
       end;;
  _ <- eputs ("Done." +:+ nl);;
  ret 0.

End Program.

(** The initial state of a run on the input [i]. *)
Definition start (i : list byte) : world := World i EmptyString EmptyString 0.

(** ** The emitter as one loop

    The reading of the emitter as a single loop that writes one line per
    entry, in palette order, after the header; it is compared with
    [gengpl] below. *)
Section Sequential.

Variable P : platform.

Fixpoint emit_seq (n : nat) (a : aco) (k : Z) : M unit :=
  match n with
  | O => ret tt
  | S n' => _ <- print_color P a k;; emit_seq n' a (k + 1)
  end.

Definition gengpl_sequential (a : aco) : M unit :=
  _ <- puts header;;
  emit_seq (Z.to_nat (len a)) a 0.

(** The lines of a list of entries, in order. *)
Fixpoint color_lines (es : list acoentry) : string :=
  match es with
  | [] => EmptyString
  | e :: es' => color_line P e +:+ color_lines es'
  end.

End Sequential.

(** ** Describing input streams

    Inputs are described word by word: [put_words ws rest] is the stream
    that holds the 16-bit words [ws], high byte first, followed by the
    bytes [rest]. *)

Definition is_word (v : Z) : bool := (0 <=? v) && (v <? 65536).

Definition byte_of (z : Z) : byte :=
  default x00 (Byte.of_N (Z.to_N (z mod 256))).

Fixpoint put_words (ws : list Z) (rest : list byte) : list byte :=
  match ws with
  | [] => rest
  | v :: ws' => byte_of (v / 256) :: byte_of v :: put_words ws' rest
  end.

(** The diagnostics of [readaco] for a version 1 or 2 stream. *)
Definition version_notice (v : Z) : string :=
  "reading ACO stream version:" +:+
  (if v =? 1 then " 1 (photoshop < 7.0)" else " 2 (photoshop >= 7.0)") +:+ nl.

Definition count_notice (colors : Z) : string :=
  dec colors +:+ " colors in this file" +:+ nl.

(** The diagnostic of [convertcolor] for a record it skips. *)
Definition skip_notice (cs : Z) : string :=
  "Non RGB color (colorspace " +:+ dec cs +:+ ") skipped" +:+ nl.

(** A colour record with discriminator 0.  The last three fields are read
    from a version 2 stream only: the word before the name length, the
    name units in front of the terminator, and the terminator word.  The
    name length word counts the units and the terminator. *)
Record rgbrec : Type := RgbRec {
  rec_r : Z;
  rec_g : Z;
  rec_b : Z;
  rec_z : Z;
  rec_x : Z;
  rec_units : list Z;
  rec_term : Z
}.

Definition rec_namelen (c : rgbrec) : Z := Z.of_nat (length (rec_units c)) + 1.

Definition rgb_words (v : Z) (c : rgbrec) : list Z :=
  [0; rec_r c; rec_g c; rec_b c; rec_z c] ++
  (if v =? 1 then []
   else [rec_x c; rec_namelen c] ++ rec_units c ++ [rec_term c]).

Definition rgbrec_ok (c : rgbrec) : bool :=
  is_word (rec_r c) && is_word (rec_g c) && is_word (rec_b c) &&
  is_word (rec_z c) && is_word (rec_x c) && is_word (rec_namelen c) &&
  forallb is_word (rec_units c) && is_word (rec_term c).

(** The character kept for a name unit, and the text that fits the
    256-byte buffer in front of its terminating NUL. *)
Definition name_char (u : Z) : ascii :=
  if 255 <? u then " "%char else char_of_int u.

Definition stored_name (units : list Z) : string :=
  String.string_of_list_ascii (take 255 (map name_char units)).

(** The palette slot expected for a record with discriminator 0. *)
Definition rgb_slot (c : rgbrec) (slot : option acoentry) : Prop :=
  exists nm,
    slot = Some (AcoEntry (rec_r c ÷ 256) (rec_g c ÷ 256) (rec_b c ÷ 256) nm).

(** The words of a record set: version, declared count, records. *)
Definition rgb_file (v : Z) (recs : list rgbrec) : list Z :=
  v :: Z.of_nat (length recs) :: flat_map (rgb_words v) recs.

(** A colour record of either kind.  For one that is not RGB: the
    discriminator, the four component words and, read from a version 2
    stream only, one more word and the name units, whose number is the
    name length word. *)
Inductive record : Type :=
| Rgb (c : rgbrec)
| NonRgb (cs w1 w2 w3 w4 t : Z) (units : list Z).

Definition record_words (v : Z) (rc : record) : list Z :=
  match rc with
  | Rgb c => rgb_words v c
  | NonRgb cs w1 w2 w3 w4 t units =>
      [cs; w1; w2; w3; w4] ++
      (if v =? 2 then [t; Z.of_nat (length units)] ++ units else [])
  end.

Definition record_ok (rc : record) : bool :=
  match rc with
  | Rgb c => rgbrec_ok c
  | NonRgb cs w1 w2 w3 w4 t units =>
      is_word cs && negb (cs =? 0) && forallb is_word [w1; w2; w3; w4] &&
      is_word t && is_word (Z.of_nat (length units)) && forallb is_word units
  end.

(** The palette slot of a record after [readaco]: filled for an RGB
    record, never stored into for any other. *)
Definition record_slot (rc : record) (slot : option acoentry) : Prop :=
  match rc with
  | Rgb c => rgb_slot c slot
  | NonRgb _ _ _ _ _ _ _ => slot = None
  end.

Fixpoint skip_notices (recs : list record) : string :=
  match recs with
  | [] => EmptyString
  | Rgb _ :: rest => skip_notices rest
  | NonRgb cs _ _ _ _ _ _ :: rest => skip_notice cs +:+ skip_notices rest
  end.

Definition record_file (v : Z) (recs : list record) : list Z :=
  v :: Z.of_nat (length recs) :: flat_map (record_words v) recs.

(** The records of [skip_file] below. *)
Definition skip_records : list record :=
  [NonRgb 1 0 0 0 0 0 []; Rgb (RgbRec 0x1234 0x5678 0x9abc 0 0 [] 0)].

(** The three diagnostics that precede [exit(1)]. *)
Definition oom_notice : string := "Out of memory!" +:+ nl.
Definition eof_notice : string := "Unexpected end of file!" +:+ nl.
Definition version_error (v : Z) : string :=
  "Unknown ACO file version " +:+ dec v +:+ ". Exiting..." +:+ nl.

(** The error stream ends with one of them. *)
Definition fatal_notice (s : string) : Prop :=
  exists pre,
    s = pre +:+ oom_notice \/ s = pre +:+ eof_notice \/
    exists v, v <> 1 /\ v <> 2 /\ s = pre +:+ version_error v.

(** Every way a computation leaves through [exit] has status 1 and comes
    right after one of the three diagnostics. *)
Definition exits_with_notice {A} (m : M A) : Prop :=
  forall w s w', m w = Exit s w' -> s = 1 /\ fatal_notice (stderr w').

(** ** Sample streams *)

(** Version 1, two records: one in colourspace 1, one RGB. *)
Definition skip_file : list byte :=
  put_words [1; 2; 1; 0; 0; 0; 0; 0; 0x1234; 0x5678; 0x9abc; 0] [].

(** Version 1, one RGB record. *)
Definition v1_file : list byte :=
  put_words [1; 1; 0; 0x1234; 0x5678; 0x9abc; 0] [].

(** The same, cut one byte short: the last word has its high byte only. *)
Definition truncated_file : list byte :=
  put_words [1; 1; 0; 0x1234; 0x5678; 0x9abc] [x00].

(** Version 2, one RGB record named "Re". *)
Definition named_file : list byte :=
  put_words [2; 1; 0; 0x1234; 0x5678; 0x9abc; 0; 0; 3; 0x52; 0x65; 0] [].

Definition two_sets : list byte := v1_file ++ named_file.

(** A version 2 RGB record whose name has a unit above 255, and two
    version 1 RGB records. *)
Definition sample_rec : rgbrec :=
  RgbRec 0x1234 0x5678 0x9abc 0 0 [0x52; 0x3b1; 0x65] 0.

Definition sample_recs : list rgbrec :=
  [RgbRec 0x1234 0x5678 0x9abc 0 0 [] 0; RgbRec 0xffff 0 0x100 0 0 [] 0].


(** ** Notions for the whole of the program *)

(** The state in which a piece of the program ends, whatever the way. *)
Definition final {A} (o : outcome A) : world :=
  match o with
  | Ret _ w => w
  | Exit _ w => w
  | Undefined w => w
  end.

(** [w'] comes after [w] in a part of the program that only reads: bytes
    were taken from the front of the input, diagnostics were appended,
    allocations were made, nothing went to standard output. *)
Definition read_only (w w' : world) : Prop :=
  stdout w' = stdout w /\
  (exists used, stdin w = used ++ stdin w') /\
  (exists t, stderr w' = stderr w +:+ t) /\
  (allocs w <= allocs w')%nat.

(** [w'] comes after [w] in a part that only writes to standard output. *)
Definition print_only (w w' : world) : Prop :=
  stdin w' = stdin w /\ stderr w' = stderr w /\ allocs w' = allocs w /\
  exists t, stdout w' = stdout w +:+ t.

(** Every run of [m] relates the state it ends in to the one it starts
    from. *)
Definition preserves {A} (R : world -> world -> Prop) (m : M A) : Prop :=
  forall w, R w (final (m w)).

Definition never_exits {A} (m : M A) : Prop :=
  forall w s w', m w <> Exit s w'.

(** A palette entry as the emitter can take it: three byte values, and
    a name, if there is one, that belongs to a version 2 palette, has at
    most 255 characters and holds no NUL. *)
Fixpoint no_nul (s : string) : bool :=
  match s with
  | EmptyString => true
  | String c rest => negb (Ascii.eqb c NUL) && no_nul rest
  end.

Definition entry_ok (v : Z) (e : acoentry) : Prop :=
  0 <= r e <= 255 /\ 0 <= g e <= 255 /\ 0 <= b e <= 255 /\
  match name e with
  | None => True
  | Some s => v = 2 /\ (String.length s <= 255)%nat /\ no_nul s = true
  end.

Definition slots_ok (v : Z) (slots : list (option acoentry)) : Prop :=
  forall k e, slots !! k = Some (Some e) -> entry_ok v e.

(** A run that ends at the end of the input: exit status 1, the stream
    exhausted, "Unexpected end of file!" last on the error stream. *)
Definition eof_exit {A} (o : outcome A) : Prop :=
  exists w', o = Exit 1 w' /\ stdin w' = [] /\
             exists pre, stderr w' = pre +:+ eof_notice.

(** The name units that make it into a stored name: those in front of
    the first unit of value 0. *)
Fixpoint before_zero (units : list Z) : list Z :=
  match units with
  | [] => []
  | u :: rest => if u =? 0 then [] else u :: before_zero rest
  end.

(** The entry made from an RGB record when every [strdup] succeeds. *)
Definition entry_of (v : Z) (c : rgbrec) : acoentry :=
  AcoEntry (rec_r c ÷ 256) (rec_g c ÷ 256) (rec_b c ÷ 256)
    (if v =? 2 then Some (stored_name (before_zero (rec_units c))) else None).

(** A platform like [glibc_lp64] on which every allocation is granted. *)
Definition ample_heap : platform :=
  Platform (fun _ _ => true) (x00, x00) "(null)" 16 16 (2 ^ 64).

(** A version 2 RGB record whose second name unit is 0. *)
Definition cut_rec : rgbrec :=
  RgbRec 0xffff 0x8000 0x00ff 0 0 [0x41; 0; 0x42] 0.

Definition is_rgb (rc : record) : bool :=
  match rc with
  | Rgb _ => true
  | NonRgb _ _ _ _ _ _ _ => false
  end.

(** * Properties *)

Section Properties.

Variable P : platform.

(** ** Bytes and words *)

Lemma byte_val_range (x : byte) : 0 <= byte_val x < 256.
Proof.
  unfold byte_val. pose proof (Byte.to_N_bounded x) as H.
  lia.
Qed.

Lemma byte_val_byte_of (z : Z) : byte_val (byte_of z) = z mod 256.
Proof.
  unfold byte_val, byte_of.
  assert (Hz : 0 <= z mod 256 < 256) by (apply Z.mod_pos_bound; lia).
  destruct (Byte.of_N (Z.to_N (z mod 256))) as [y|] eqn:E; simpl.
  - apply Byte.to_of_N in E. rewrite E. lia.
  - apply Byte.of_N_None_iff in E. lia.
Qed.

(** [buf[1] | buf[0] << 8] is the big-endian value of the two bytes. *)
Lemma lor_shiftl_bytes (hi lo : Z) :
  0 <= lo < 256 -> 0 <= hi ->
  Z.lor lo (Z.shiftl hi 8) = hi * 256 + lo.
Proof.
  intros Hlo Hhi.
  assert (Hland : Z.land lo (Z.shiftl hi 8) = 0).
  { apply Z.bits_inj'. intros k Hk. rewrite Z.land_spec, Z.bits_0.
    destruct (Z.ltb_spec k 8) as [Hlt|Hge].
    - rewrite (Z.shiftl_spec_low hi 8 k Hlt). apply andb_false_r.
    - replace lo with (lo mod 2 ^ 8) by (apply Z.mod_small; simpl; lia).
      rewrite Z.mod_pow2_bits_high by lia. reflexivity. }
  rewrite <- (Z.lxor_lor _ _ Hland), <- (Z.add_nocarry_lxor _ _ Hland).
  rewrite Z.shiftl_mul_pow2 by lia. change (2 ^ 8) with 256. lia.
Qed.

Lemma word_of_bytes (b0 b1 : byte) :
  Z.lor (byte_val b1) (Z.shiftl (byte_val b0) 8)
  = byte_val b0 * 256 + byte_val b1.
Proof.
  apply lor_shiftl_bytes; [apply byte_val_range | apply byte_val_range].
Qed.

Lemma is_word_spec (v : Z) : is_word v = true <-> 0 <= v < 65536.
Proof. unfold is_word. rewrite andb_true_iff, Z.leb_le, Z.ltb_lt. tauto. Qed.

Lemma word_of_put (v : Z) :
  is_word v = true ->
  Z.lor (byte_val (byte_of v)) (Z.shiftl (byte_val (byte_of (v / 256))) 8) = v.
Proof.
  intros Hv%is_word_spec. rewrite word_of_bytes, !byte_val_byte_of.
  rewrite (Z.mod_small (v / 256)).
  - pose proof (Z.div_mod v 256). lia.
  - split; [apply Z.div_pos; lia | apply Z.div_lt_upper_bound; lia].
Qed.

(** ** The word reader *)

Lemma readword_eof o e n : readword P (World [] o e n) = Ret (-1) (World [] o e n).
Proof. reflexivity. Qed.

Lemma readword_two (b0 b1 : byte) rest o e n :
  readword P (World (b0 :: b1 :: rest) o e n)
  = Ret (byte_val b0 * 256 + byte_val b1) (World rest o e n).
Proof.
  unfold readword, bind, fread2; simpl. rewrite word_of_bytes. reflexivity.
Qed.

Lemma readword_short (b0 : byte) o e n :
  readword P (World [b0] o e n)
  = Ret (byte_val b0 * 256 + byte_val (snd (stale_buf P))) (World [] o e n).
Proof.
  unfold readword, bind, fread2; simpl. rewrite word_of_bytes. reflexivity.
Qed.

(** Whatever is left on the stream, a word that is returned is a 16-bit
    value, and the stream is never longer afterwards. *)
Lemma readword_cases (w : world) :
  exists v w', readword P w = Ret v w' /\
    ((v = -1 /\ stdin w = [] /\ w' = w) \/ (0 <= v < 65536 /\ stdin w <> [])).
Proof.
  destruct w as [i o e n]. destruct i as [|b0 [|b1 rest]].
  - eexists _, _. split; [apply readword_eof|]. left. auto.
  - eexists _, _. split; [apply readword_short|]. right.
    pose proof (byte_val_range b0). pose proof (byte_val_range (snd (stale_buf P))).
    split; [lia | discriminate].
  - eexists _, _. split; [apply readword_two|]. right.
    pose proof (byte_val_range b0). pose proof (byte_val_range b1).
    split; [lia | discriminate].
Qed.

Lemma readword_put (v : Z) ws rest o e n :
  is_word v = true ->
  readword P (World (put_words (v :: ws) rest) o e n)
  = Ret v (World (put_words ws rest) o e n).
Proof.
  intros Hv. unfold readword, bind, fread2; simpl.
  rewrite (word_of_put v Hv). reflexivity.
Qed.

Lemma mustreadword_put (v : Z) ws rest o e n :
  is_word v = true ->
  mustreadword P (World (put_words (v :: ws) rest) o e n)
  = Ret v (World (put_words ws rest) o e n).
Proof.
  intros Hv. unfold mustreadword, bind. rewrite (readword_put v ws rest o e n Hv).
  apply is_word_spec in Hv. destruct (Z.eqb_spec v (-1)); [lia | reflexivity].
Qed.

Lemma mustreadword_eof o e n :
  mustreadword P (World [] o e n)
  = Exit 1 (World [] o (e +:+ "Unexpected end of file!" +:+ nl) n).
Proof. reflexivity. Qed.

Lemma put_words_app (ws1 ws2 : list Z) rest :
  put_words (ws1 ++ ws2) rest = put_words ws1 (put_words ws2 rest).
Proof. induction ws1 as [|v ws1 IH]; simpl; [reflexivity | now rewrite IH]. Qed.

Lemma skipwords_put (ws ws' : list Z) rest o e n :
  forallb is_word ws = true ->
  skipwords P (length ws) (World (put_words (ws ++ ws') rest) o e n)
  = Ret tt (World (put_words ws' rest) o e n).
Proof.
  induction ws as [|v ws IH]; intros Hws; simpl in *.
  - reflexivity.
  - apply andb_true_iff in Hws as [Hv Hws]. unfold bind.
    change (byte_of (v / 256) :: byte_of v :: put_words (ws ++ ws') rest)
      with (put_words (v :: ws ++ ws') rest).
    rewrite (mustreadword_put v _ rest o e n Hv). apply IH, Hws.
Qed.

Lemma mustreadword_bytes (v : Z) bs o e n :
  is_word v = true ->
  mustreadword P (World (byte_of (v / 256) :: byte_of v :: bs) o e n)
  = Ret v (World bs o e n).
Proof.
  intros Hv. unfold mustreadword, bind, readword, bind, fread2; simpl.
  rewrite (word_of_put v Hv).
  apply is_word_spec in Hv. destruct (Z.eqb_spec v (-1)); [lia | reflexivity].
Qed.

Lemma bind_Ret {A B} (m : M A) (k : A -> M B) w a w' :
  m w = Ret a w' -> bind m k w = k a w'.
Proof. intros H. unfold bind. now rewrite H. Qed.

Lemma bind_Exit {A B} (m : M A) (k : A -> M B) w s w' :
  m w = Exit s w' -> bind m k w = Exit s w'.
Proof. intros H. unfold bind. now rewrite H. Qed.

Lemma bind_bind {A B C} (m : M A) (f : A -> M B) (k : B -> M C) w :
  bind (bind m f) k w = bind m (fun x => bind (f x) k) w.
Proof. unfold bind. destruct (m w); reflexivity. Qed.

(** ** The name loop *)

Lemma string_app_nil_r (s : string) : s +:+ EmptyString = s.
Proof.
  induction s as [|c s IH]; [reflexivity|].
  change (String c (s +:+ EmptyString) = String c s). now f_equal.
Qed.

Lemma string_app_assoc (s1 s2 s3 : string) :
  (s1 +:+ s2) +:+ s3 = s1 +:+ (s2 +:+ s3).
Proof.
  induction s1 as [|c s1 IH]; [reflexivity|].
  change (String c ((s1 +:+ s2) +:+ s3) = String c (s1 +:+ (s2 +:+ s3))).
  now f_equal.
Qed.

Lemma name_char_unfold (u : Z) :
  char_of_int (if 255 <? u then 32 else u) = name_char u.
Proof. unfold name_char. destruct (255 <? u); reflexivity. Qed.

Lemma readname_put (units : list Z) : forall buflen buf bs o e n,
  forallb is_word units = true ->
  readname P (length units) buflen buf (World (put_words units bs) o e n)
  = Ret (buf +:+ String.string_of_list_ascii
                   (take (Z.to_nat (buflen - 1)) (map name_char units)))
        (World bs o e n).
Proof.
  induction units as [|u units IH]; intros buflen buf bs o e n Hu.
  - cbn [length readname put_words map]. rewrite take_nil.
    cbn [String.string_of_list_ascii]. now rewrite string_app_nil_r.
  - simpl in Hu. apply andb_true_iff in Hu as [Hu Hus].
    cbn [length readname put_words].
    rewrite (bind_Ret _ _ _ _ _ (mustreadword_bytes u _ o e n Hu)).
    rewrite name_char_unfold.
    destruct (Z.ltb_spec 1 buflen) as [Hlt|Hge].
    + rewrite IH by assumption.
      replace (Z.to_nat (buflen - 1)) with (S (Z.to_nat (buflen - 1 - 1))) by lia.
      cbn [map take String.string_of_list_ascii]. rewrite string_app_assoc. reflexivity.
    + rewrite IH by assumption.
      replace (Z.to_nat (buflen - 1)) with O by lia.
      rewrite !take_0. simpl. reflexivity.
Qed.

(** ** One colour record *)

Lemma rgbrec_ok_spec (c : rgbrec) :
  rgbrec_ok c = true ->
  is_word (rec_r c) = true /\ is_word (rec_g c) = true /\
  is_word (rec_b c) = true /\ is_word (rec_z c) = true /\
  is_word (rec_x c) = true /\ is_word (rec_namelen c) = true /\
  forallb is_word (rec_units c) = true /\ is_word (rec_term c) = true.
Proof.
  unfold rgbrec_ok. rewrite !andb_true_iff. tauto.
Qed.

Ltac read_word H :=
  rewrite (bind_Ret _ _ _ _ _ (mustreadword_bytes _ _ _ _ _ H)).

(** A record with discriminator 0: the three components are reduced to
    eight bits, and in version 2 the name is collected and its terminator
    word consumed; the stream is left at the first byte after the record. *)
Lemma convertcolor_rgb (v : Z) (c : rgbrec) bs o e n :
  rgbrec_ok c = true ->
  convertcolor P v 256 (World (put_words (rgb_words v c) bs) o e n)
  = Ret (Converted (rec_r c ÷ 256) (rec_g c ÷ 256) (rec_b c ÷ 256)
           (if v =? 1 then None
            else Some (stored_name (rec_units c) +:+ String NUL EmptyString)))
        (World bs o e n).
Proof.
  intros (Hr & Hg & Hb & Hz & Hx & Hl & Hu & Ht)%rgbrec_ok_spec.
  unfold convertcolor, rgb_words. cbn [app put_words].
  rewrite (bind_Ret _ _ _ _ _ (mustreadword_bytes 0 _ o e n eq_refl)).
  cbn [Z.eqb negb].
  read_word Hr. read_word Hg. read_word Hb. read_word Hz.
  destruct (v =? 1); [reflexivity|].
  cbn [app put_words]. read_word Hx. read_word Hl.
  rewrite put_words_app.
  replace (Z.to_nat (rec_namelen c - 1)) with (length (rec_units c))
    by (unfold rec_namelen; lia).
  rewrite (bind_Ret _ _ _ _ _ (readname_put (rec_units c) 256 EmptyString _ o e n Hu)).
  cbn [put_words]. read_word Ht.
  reflexivity.
Qed.

Lemma length_string_of_list_ascii (l : list ascii) :
  String.length (String.string_of_list_ascii l) = length l.
Proof. induction l as [|c l IH]; simpl; [reflexivity | now f_equal]. Qed.

(** C5.  A version 2 record with discriminator 0 whose name length word
    is L = (number of units) + 1 >= 1: the parser reads the L-1 units,
    keeps a space for every unit above 255, stores the first 255 of the
    resulting characters followed by a NUL, reads the terminator word, and
    leaves the stream at the first byte after the record, however long the
    name is. *)
Theorem convertcolor_v2_name (c : rgbrec) bs o e n :
  rgbrec_ok c = true ->
  let L := Z.of_nat (length (rec_units c)) + 1 in
  let kept := String.string_of_list_ascii (take 255 (map name_char (rec_units c))) in
  1 <= L /\
  convertcolor P 2 256
    (World (put_words ([0; rec_r c; rec_g c; rec_b c; rec_z c; rec_x c; L]
                        ++ rec_units c ++ [rec_term c]) bs) o e n)
  = Ret (Converted (rec_r c ÷ 256) (rec_g c ÷ 256) (rec_b c ÷ 256)
           (Some (kept +:+ String NUL EmptyString)))
        (World bs o e n) /\
  String.length kept = Nat.min 255 (Z.to_nat (L - 1)) /\
  (forall u, 255 < u -> name_char u = " "%char) /\
  (forall u, u <= 255 -> name_char u = char_of_int u).
Proof.
  intros Hc L kept. split; [unfold L; lia|]. split; [|split; [|split]].
  - exact (convertcolor_rgb 2 c bs o e n Hc).
  - unfold kept. rewrite length_string_of_list_ascii, length_take, length_map.
    unfold L. f_equal. lia.
  - intros u Hu. unfold name_char. destruct (Z.ltb_spec 255 u); [reflexivity | lia].
  - intros u Hu. unfold name_char. destruct (Z.ltb_spec 255 u); [lia | reflexivity].
Qed.

Lemma skipwords_bytes (ws : list Z) bs o e n :
  forallb is_word ws = true ->
  skipwords P (length ws) (World (put_words ws bs) o e n)
  = Ret tt (World bs o e n).
Proof.
  intros H. pose proof (skipwords_put ws [] bs o e n H) as E.
  now rewrite app_nil_r in E.
Qed.

Lemma convertcolor_skip (v cs w1 w2 w3 w4 t : Z) (units : list Z) bs o e n :
  record_ok (NonRgb cs w1 w2 w3 w4 t units) = true ->
  convertcolor P v 256
    (World (put_words (record_words v (NonRgb cs w1 w2 w3 w4 t units)) bs) o e n)
  = Ret Skipped (World bs o (e +:+ skip_notice cs) n).
Proof.
  cbn [record_ok]. rewrite !andb_true_iff.
  intros (((((Hcs & Hnz) & H4) & Ht) & Hl) & Hu).
  unfold convertcolor. cbn [record_words]. rewrite put_words_app.
  change (put_words [cs; w1; w2; w3; w4] ?x)
    with (byte_of (cs / 256) :: byte_of cs :: put_words [w1; w2; w3; w4] x).
  read_word Hcs. rewrite Hnz.
  rewrite (bind_Ret _ _ _ _ _ (skipwords_bytes [w1; w2; w3; w4] _ o e n H4)).
  destruct (v =? 2).
  - cbn [app put_words]. rewrite bind_bind. read_word Ht.
    rewrite bind_bind. read_word Hl.
    rewrite Nat2Z.id.
    rewrite (bind_Ret _ _ _ _ _ (skipwords_bytes units bs o e n Hu)).
    reflexivity.
  - reflexivity.
Qed.


(** ** A record set of RGB records *)

Lemma to_uchar_quot (w : Z) : is_word w = true -> to_uchar (w ÷ 256) = w ÷ 256.
Proof.
  intros Hw%is_word_spec. unfold to_uchar.
  rewrite Z.quot_div_nonneg by lia.
  apply Z.mod_small. split; [apply Z.div_pos; lia | apply Z.div_lt_upper_bound; lia].
Qed.

Lemma insert_at_length {A} (pre : list A) (x y : A) post :
  <[length pre := x]> (pre ++ y :: post) = pre ++ x :: post.
Proof. induction pre as [|z pre IH]; simpl; [reflexivity | now f_equal]. Qed.

(** One turn of the loop of [readaco] on an RGB record: the slot at the
    current index is overwritten with the entry, and the loop goes on
    behind the record. *)
Lemma readaco_colors_step_rgb (v : Z) (c : rgbrec) (k : nat) pre s post bs o e n :
  rgbrec_ok c = true ->
  exists x n',
    rgb_slot c x /\
    readaco_colors P (S k) v (Z.of_nat (length pre)) (pre ++ s :: post)
      (World (put_words (rgb_words v c) bs) o e n)
    = readaco_colors P k v (Z.of_nat (length (pre ++ [x]))) ((pre ++ [x]) ++ post)
        (World bs o e n').
Proof.
  intros Hc. cbn [readaco_colors].
  rewrite (bind_Ret _ _ _ _ _ (convertcolor_rgb v c _ o e n Hc)).
  cbv zeta. rewrite Nat2Z.id, !insert_at_length.
  destruct (rgbrec_ok_spec c Hc) as (Hr & Hg & Hb & _).
  rewrite !to_uchar_quot by assumption.
  replace (Z.of_nat (length pre) + 1) with (Z.of_nat (length (pre ++ [s])))
    by (rewrite length_app; simpl; lia).
  destruct (v =? 2) eqn:E2.
  - apply Z.eqb_eq in E2. subst v. cbn [Z.eqb Pos.eqb].
    unfold strdup at 1. rewrite bind_bind. unfold malloc at 1.
    unfold bind at 1. unfold bind at 1. unfold ret at 1. unfold bump_allocs.
    cbn [stdin stdout stderr allocs].
    set (nm := if malloc_ok P n _ then Some _ else None).
    set (x := Some (AcoEntry _ _ _ nm)).
    rewrite insert_at_length.
    exists x, (S n). split; [exists nm; reflexivity|].
    rewrite !length_app, <- app_assoc. reflexivity.
  - set (x := Some (AcoEntry _ _ _ None)).
    exists x, n. split; [exists None; reflexivity|].
    rewrite !length_app, <- app_assoc. destruct (v =? 1); reflexivity.
Qed.

(** One turn on a record that is not RGB: the notice is written and the
    loop goes on behind the record, the slots being as they were. *)
Lemma readaco_colors_step_skip (v cs w1 w2 w3 w4 t : Z) units (k : nat) j slots
      bs o e n :
  record_ok (NonRgb cs w1 w2 w3 w4 t units) = true ->
  readaco_colors P (S k) v j slots
    (World (put_words (record_words v (NonRgb cs w1 w2 w3 w4 t units)) bs) o e n)
  = readaco_colors P k v (j + 1) slots (World bs o (e +:+ skip_notice cs) n).
Proof.
  intros Hok. cbn [readaco_colors].
  now rewrite (bind_Ret _ _ _ _ _ (convertcolor_skip v cs w1 w2 w3 w4 t units bs o e n Hok)).
Qed.

Lemma readaco_colors_rgb (v : Z) (recs : list rgbrec) :
  forall pre post bs o e n,
  forallb rgbrec_ok recs = true ->
  length post = length recs ->
  exists filled n',
    readaco_colors P (length recs) v (Z.of_nat (length pre)) (pre ++ post)
      (World (put_words (flat_map (rgb_words v) recs) bs) o e n)
    = Ret (pre ++ filled) (World bs o e n') /\
    Forall2 rgb_slot recs filled.
Proof.
  induction recs as [|c recs IH]; intros pre post bs o e n Hok Hlen.
  - destruct post; [|discriminate]. exists [], n. split; [reflexivity | constructor].
  - destruct post as [|s post]; [discriminate|].
    injection Hlen as Hlen. cbn [forallb] in Hok.
    apply andb_true_iff in Hok as [Hc Hok].
    cbn [length flat_map]. rewrite put_words_app.
    destruct (readaco_colors_step_rgb v c (length recs) pre s post
                (put_words (flat_map (rgb_words v) recs) bs) o e n Hc)
      as (x & n1 & Hx & ->).
    destruct (IH (pre ++ [x]) post bs o e n1 Hok Hlen) as (filled & n' & E & F).
    exists (x :: filled), n'. split.
    + rewrite E, <- app_assoc. reflexivity.
    + constructor; assumption.
Qed.

(** The loop on a record set of both kinds, started on slots nothing was
    stored into yet. *)
Lemma readaco_colors_records (v : Z) (recs : list record) :
  forall pre bs o e n,
  forallb record_ok recs = true ->
  exists filled n',
    readaco_colors P (length recs) v (Z.of_nat (length pre))
      (pre ++ replicate (length recs) None)
      (World (put_words (flat_map (record_words v) recs) bs) o e n)
    = Ret (pre ++ filled) (World bs o (e +:+ skip_notices recs) n') /\
    Forall2 record_slot recs filled.
Proof.
  induction recs as [|rc recs IH]; intros pre bs o e n Hok.
  - exists [], n. split; [|constructor].
    cbn [length readaco_colors replicate flat_map put_words skip_notices].
    now rewrite string_app_nil_r.
  - cbn [forallb] in Hok. apply andb_true_iff in Hok as [Hrc Hok].
    cbn [length flat_map replicate]. rewrite put_words_app.
    destruct rc as [c | cs w1 w2 w3 w4 t units].
    + cbn [record_words skip_notices].
      destruct (readaco_colors_step_rgb v c (length recs) pre None
                  (replicate (length recs) None)
                  (put_words (flat_map (record_words v) recs) bs) o e n Hrc)
        as (x & n1 & Hx & ->).
      destruct (IH (pre ++ [x]) bs o e n1 Hok) as (filled & n' & E & F).
      exists (x :: filled), n'. split.
      * rewrite E, <- app_assoc. reflexivity.
      * constructor; assumption.
    + rewrite (readaco_colors_step_skip v cs w1 w2 w3 w4 t units (length recs)
                 (Z.of_nat (length pre)) (pre ++ None :: replicate (length recs) None)
                 (put_words (flat_map (record_words v) recs) bs) o e n Hrc).
      replace (Z.of_nat (length pre) + 1)
        with (Z.of_nat (length (pre ++ [@None acoentry])))
        by (rewrite length_app; simpl; lia).
      replace (pre ++ None :: replicate (length recs) None)
        with ((pre ++ [None]) ++ replicate (length recs) (@None acoentry))
        by (rewrite <- app_assoc; reflexivity).
      destruct (IH (pre ++ [None]) bs o (e +:+ skip_notice cs) n Hok)
        as (filled & n' & E & F).
      exists (None :: filled), n'. split.
      * rewrite E, <- app_assoc. cbn [skip_notices].
        now rewrite string_app_assoc.
      * constructor; [reflexivity | assumption].
Qed.

Lemma readword_bytes (v : Z) bs o e n :
  is_word v = true ->
  readword P (World (byte_of (v / 256) :: byte_of v :: bs) o e n)
  = Ret v (World bs o e n).
Proof. intros Hv. exact (readword_put v [] bs o e n Hv). Qed.

Lemma eputs_World (s : string) i o e n :
  eputs s (World i o e n) = Ret tt (World i o (e +:+ s) n).
Proof. reflexivity. Qed.

Lemma puts_World (s : string) i o e n :
  puts s (World i o e n) = Ret tt (World i (o +:+ s) e n).
Proof. reflexivity. Qed.

Lemma acomalloc_ok (sz : Z) i o e n :
  malloc_ok P n sz = true ->
  acomalloc P sz (World i o e n) = Ret tt (World i o e (S n)).
Proof. intros H. unfold acomalloc, bind, malloc; simpl. now rewrite H. Qed.

Lemma acomalloc_fail (sz : Z) i o e n :
  malloc_ok P n sz = false ->
  acomalloc P sz (World i o e n)
  = Exit 1 (World i o (e +:+ "Out of memory!" +:+ nl) (S n)).
Proof. intros H. unfold acomalloc, bind, malloc; simpl. now rewrite H. Qed.

(** [readaco] up to its loop, on a version 1 or 2 header, when the two
    allocations are granted. *)
Lemma readaco_header (v count : Z) (ws : list Z) bs o e n :
  (v =? 1) || (v =? 2) = true ->
  is_word count = true ->
  malloc_ok P n (sizeof_aco P) = true ->
  malloc_ok P (S n) (size_mul P (sizeof_acoentry P) count) = true ->
  readaco P (World (put_words (v :: count :: ws) bs) o e n)
  = bind (readaco_colors P (Z.to_nat count) v 0 (replicate (Z.to_nat count) None))
      (fun slots => ret (Some (Aco v count slots)))
      (World (put_words ws bs) o (e +:+ version_notice v +:+ count_notice count)
         (S (S n))).
Proof.
  intros Hv Hcount Hm1 Hm2.
  assert (Hvw : is_word v = true).
  { apply orb_true_iff in Hv as [->%Z.eqb_eq | ->%Z.eqb_eq]; reflexivity. }
  unfold readaco. cbn [put_words].
  rewrite (bind_Ret _ _ _ _ _ (readword_bytes v _ o e n Hvw)).
  replace (v =? -1) with false
    by (apply orb_true_iff in Hv as [->%Z.eqb_eq | ->%Z.eqb_eq]; reflexivity).
  rewrite (bind_Ret _ _ _ _ _ (eputs_World _ _ _ _ _)).
  assert (Hnotice :
    (if v =? 1 then eputs (" 1 (photoshop < 7.0)" +:+ nl)
     else if v =? 2 then eputs (" 2 (photoshop >= 7.0)" +:+ nl)
     else _ <- eputs ("Unknown ACO file version " +:+ dec v +:+ ". Exiting..." +:+ nl);;
          exit 1)
    = eputs ((if v =? 1 then " 1 (photoshop < 7.0)" else " 2 (photoshop >= 7.0)") +:+ nl)).
  { apply orb_true_iff in Hv as [->%Z.eqb_eq | ->%Z.eqb_eq]; reflexivity. }
  rewrite Hnotice.
  rewrite (bind_Ret _ _ _ _ _ (eputs_World _ _ _ _ _)).
  rewrite (bind_Ret _ _ _ _ _ (readword_bytes _ _ _ _ _ Hcount)).
  rewrite (bind_Ret _ _ _ _ _ (eputs_World _ _ _ _ _)).
  rewrite (bind_Ret _ _ _ _ _ (acomalloc_ok _ _ _ _ _ Hm1)).
  rewrite (bind_Ret _ _ _ _ _ (acomalloc_ok _ _ _ _ _ Hm2)).
  unfold version_notice, count_notice. now rewrite !string_app_assoc.
Qed.

(** A record set of both kinds: every record keeps the slot of its index,
    [len] is the declared count, and the notices of the skipped records
    are on the error stream in order. *)
Lemma readaco_record_file (v : Z) (recs : list record) bs o e n :
  (v =? 1) || (v =? 2) = true ->
  forallb record_ok recs = true ->
  is_word (Z.of_nat (length recs)) = true ->
  malloc_ok P n (sizeof_aco P) = true ->
  malloc_ok P (S n)
    (size_mul P (sizeof_acoentry P) (Z.of_nat (length recs))) = true ->
  exists slots n',
    readaco P (World (put_words (record_file v recs) bs) o e n)
    = Ret (Some (Aco v (Z.of_nat (length recs)) slots))
        (World bs o
           (e +:+ version_notice v +:+ count_notice (Z.of_nat (length recs))
            +:+ skip_notices recs) n') /\
    Forall2 record_slot recs slots.
Proof.
  intros Hv Hrecs Hcount Hm1 Hm2.
  destruct (readaco_colors_records v recs [] bs o
              (e +:+ version_notice v +:+ count_notice (Z.of_nat (length recs)))
              (S (S n)) Hrecs)
    as (slots & n' & Eloop & Hslots).
  exists slots, n'. split; [|exact Hslots].
  unfold record_file. rewrite (readaco_header _ _ _ _ _ _ _ Hv Hcount Hm1 Hm2).
  rewrite Nat2Z.id.
  change (Z.of_nat (length (@nil (option acoentry)))) with 0 in Eloop.
  change ([] ++ replicate (length recs) (@None acoentry))
    with (replicate (length recs) (@None acoentry)) in Eloop.
  rewrite (bind_Ret _ _ _ _ _ Eloop). unfold ret.
  now rewrite !string_app_assoc.
Qed.

(** C4.  A record set of version 1 or 2 in which every record has
    discriminator 0: the palette holds the declared count of entries, and
    the r, g and b of each are the record's three words divided by 256,
    rounding towards zero. *)
Theorem readaco_all_rgb (v : Z) (recs : list rgbrec) bs o e n :
  (v =? 1) || (v =? 2) = true ->
  forallb rgbrec_ok recs = true ->
  is_word (Z.of_nat (length recs)) = true ->
  malloc_ok P n (sizeof_aco P) = true ->
  malloc_ok P (S n)
    (size_mul P (sizeof_acoentry P) (Z.of_nat (length recs))) = true ->
  exists a w',
    readaco P (World (put_words (rgb_file v recs) bs) o e n) = Ret (Some a) w' /\
    stdin w' = bs /\
    stderr w' = e +:+ version_notice v +:+ count_notice (Z.of_nat (length recs)) /\
    ver a = v /\
    len a = Z.of_nat (length recs) /\
    length (color a) = length recs /\
    Forall2 rgb_slot recs (color a).
Proof.
  intros Hv Hrecs Hcount Hm1 Hm2.
  destruct (readaco_colors_rgb v recs [] (replicate (length recs) None)
              bs o (e +:+ version_notice v +:+ count_notice (Z.of_nat (length recs)))
              (S (S n)) Hrecs (length_replicate _ _))
    as (filled & n' & Eloop & Hfilled).
  exists (Aco v (Z.of_nat (length recs)) filled),
    (World bs o (e +:+ version_notice v +:+ count_notice (Z.of_nat (length recs))) n').
  split; [|repeat split; try reflexivity].
  - unfold rgb_file. rewrite (readaco_header _ _ _ _ _ _ _ Hv Hcount Hm1 Hm2).
    rewrite Nat2Z.id.
    change (Z.of_nat (length (@nil (option acoentry)))) with 0 in Eloop.
    change ([] ++ replicate (length recs) (@None acoentry))
      with (replicate (length recs) (@None acoentry)) in Eloop.
    rewrite (bind_Ret _ _ _ _ _ Eloop). reflexivity.
  - cbn [color]. symmetry. apply (Forall2_length _ _ _ Hfilled).
  - exact Hfilled.
Qed.

(** ** The text emitter *)

Lemma bind_ext {A B} (m : M A) (f g : A -> M B) w :
  (forall x w', f x w' = g x w') -> bind m f w = bind m g w.
Proof. intros H. unfold bind. destruct (m w); auto. Qed.

Lemma emit_seq_app (a : aco) (m n : nat) : forall k w,
  emit_seq P (m + n) a k w
  = bind (emit_seq P m a k) (fun _ => emit_seq P n a (k + Z.of_nat m)) w.
Proof.
  induction m as [|m IH]; intros k w.
  - cbn [Nat.add emit_seq]. unfold bind at 1, ret. f_equal. lia.
  - cbn [Nat.add emit_seq]. rewrite bind_bind. apply bind_ext. intros _ w'.
    rewrite IH. apply bind_ext. intros _ w''. f_equal. lia.
Qed.

(** One pass of the inner loop writes the entries [j+i], [j+i+1], ... up
    to the end of the group or of the palette, whichever comes first. *)
Lemma gengpl_row_seq (a : aco) (j : Z) (n : nat) : forall i w,
  j + i <= len a ->
  gengpl_row P n a j i w
  = emit_seq P (Nat.min n (Z.to_nat (len a - (j + i)))) a (j + i) w.
Proof.
  induction n as [|n IH]; intros i w Hle.
  - reflexivity.
  - cbn [gengpl_row]. destruct (Z.eqb_spec (j + i) (len a)) as [E|NE].
    + replace (Z.to_nat (len a - (j + i))) with O by lia.
      rewrite Nat.min_0_r. reflexivity.
    + replace (Z.to_nat (len a - (j + i)))
        with (S (Z.to_nat (len a - (j + (i + 1))))) by lia.
      cbn [Nat.min emit_seq]. apply bind_ext. intros _ w'.
      rewrite IH by lia. f_equal. lia.
Qed.

(** With enough fuel the outer loop writes every entry from [j] on. *)
Lemma gengpl_rows_seq (a : aco) (fuel : nat) : forall j w,
  (Z.to_nat (len a - j) <= fuel)%nat ->
  gengpl_rows P fuel a j w = emit_seq P (Z.to_nat (len a - j)) a j w.
Proof.
  induction fuel as [|fuel IH]; intros j w Hfuel.
  - replace (Z.to_nat (len a - j)) with O by lia. reflexivity.
  - cbn [gengpl_rows]. destruct (Z.ltb_spec j (len a)) as [Hlt|Hge].
    + replace (Z.to_nat (len a - j))
        with (Nat.min (Z.to_nat cols) (Z.to_nat (len a - (j + 0)))
              + Z.to_nat (len a - (j + cols)))%nat by (unfold cols; lia).
      rewrite emit_seq_app.
      unfold bind at 1. rewrite gengpl_row_seq by lia.
      replace (j + 0) with j by lia.
      unfold bind at 1.
      destruct (emit_seq P _ a j w) as [[] w'| |]; try reflexivity.
      rewrite IH by (unfold cols; lia).
      destruct (Z.le_gt_cases cols (len a - j)) as [Hfull|Hpart].
      * f_equal. unfold cols in *. lia.
      * replace (Z.to_nat (len a - (j + cols))) with O by lia. reflexivity.
    + replace (Z.to_nat (len a - j)) with O by lia. reflexivity.
Qed.

(** The fuel [gengpl] passes is enough: more fuel changes nothing. *)
Lemma gengpl_rows_fuel (a : aco) (fuel : nat) w :
  (Z.to_nat (len a) <= fuel)%nat ->
  gengpl_rows P fuel a 0 w = gengpl_rows P (Z.to_nat (len a)) a 0 w.
Proof.
  intros H. rewrite !gengpl_rows_seq by lia. reflexivity.
Qed.

Lemma emit_seq_entries (a : aco) (es : list acoentry) : forall pre i o e n,
  color a = map Some (pre ++ es) ->
  emit_seq P (length es) a (Z.of_nat (length pre)) (World i o e n)
  = Ret tt (World i (o +:+ color_lines P es) e n).
Proof.
  induction es as [|x es IH]; intros pre i o e n Hc.
  - cbn [length emit_seq color_lines]. now rewrite string_app_nil_r.
  - cbn [length emit_seq color_lines]. unfold bind, print_color.
    rewrite Nat2Z.id, Hc, map_app. cbn [map].
    rewrite list_lookup_middle by (now rewrite length_map).
    rewrite puts_World.
    replace (Z.of_nat (length pre) + 1) with (Z.of_nat (length (pre ++ [x])))
      by (rewrite length_app; simpl; lia).
    rewrite (IH (pre ++ [x])) by (now rewrite <- app_assoc).
    now rewrite string_app_assoc.
Qed.

Lemma gengpl_sequential_eq (a : aco) w : gengpl P a w = gengpl_sequential P a w.
Proof.
  unfold gengpl, gengpl_sequential. apply bind_ext. intros _ w'.
  rewrite gengpl_rows_seq by lia. f_equal. lia.
Qed.

(** A palette whose slots are all filled. *)
Lemma gengpl_filled (v : Z) (es : list acoentry) i o e n :
  gengpl P (Aco v (Z.of_nat (length es)) (map Some es)) (World i o e n)
  = Ret tt (World i (o +:+ header +:+ color_lines P es) e n).
Proof.
  rewrite gengpl_sequential_eq. unfold gengpl_sequential.
  rewrite (bind_Ret _ _ _ _ _ (puts_World _ _ _ _ _)). cbn [len].
  rewrite Nat2Z.id.
  rewrite (emit_seq_entries (Aco v (Z.of_nat (length es)) (map Some es))
             es [] i _ e n eq_refl).
  now rewrite string_app_assoc.
Qed.

(** C9.  The grouped nested loop of the emitter yields what a single loop
    over the indices below [len], one line per entry, yields; a palette
    whose slots are all filled is written as the header followed by the
    lines of its entries in order, and a palette of length zero as the
    four header lines alone. *)
Theorem gengpl_is_sequential :
  (forall a w, gengpl P a w = gengpl_sequential P a w) /\
  (forall v es i o e n,
     gengpl P (Aco v (Z.of_nat (length es)) (map Some es)) (World i o e n)
     = Ret tt (World i (o +:+ header +:+ color_lines P es) e n)) /\
  (forall v slots i o e n,
     gengpl P (Aco v 0 slots) (World i o e n)
     = Ret tt (World i (o +:+ "GIMP Palette" +:+ nl +:+ "Name: Untitled" +:+ nl
                          +:+ "Columns: 16" +:+ nl +:+ "#") e n)).
Proof.
  split; [exact gengpl_sequential_eq|]. split; [exact gengpl_filled|].
  intros v slots i o e n. reflexivity.
Qed.

(** ** The record-set driver and the program *)

Lemma bind_inv {A B} (m : M A) (k : A -> M B) w x w' :
  bind m k w = Ret x w' -> exists a w1, m w = Ret a w1 /\ k a w1 = Ret x w'.
Proof.
  unfold bind. destruct (m w) as [a w1| |]; [|discriminate..].
  intros H. now exists a, w1.
Qed.

(** [readaco] reports no record set only on a stream that is already
    exhausted, and changes nothing then. *)
Lemma readaco_None (w w1 : world) :
  readaco P w = Ret None w1 -> stdin w = [] /\ w1 = w.
Proof.
  intros H. unfold readaco in H.
  apply bind_inv in H as (v & w' & Hread & H).
  destruct (readword_cases w) as (v0 & w0 & E & [(-> & Hin & ->) | (Hv & Hin)]);
    rewrite E in Hread; injection Hread as <- <-.
  - cbn [Z.eqb] in H. injection H as <-. auto.
  - exfalso. destruct (Z.eqb_spec v0 (-1)); [lia|].
    repeat (apply bind_inv in H as (? & ? & _ & H)). discriminate H.
Qed.

Lemma readaco_eof o e n : readaco P (World [] o e n) = Ret None (World [] o e n).
Proof. reflexivity. Qed.

(** C6.  [main] calls [readaco] twice on the same stream.  When the second
    call yields a palette, that palette is emitted; when only the first
    does, the first is emitted; when the first yields none, neither does
    the second, the "No data!" diagnostic is written and nothing goes to
    standard output. *)
Theorem main_selects_palette (w w1 w2 : world) (r1 r2 : option aco) :
  readaco P w = Ret r1 w1 ->
  readaco P w1 = Ret r2 w2 ->
  let w3 := add_stderr w2 ("Generating GPL..." +:+ nl) in
  let finish := fun _ : unit => _ <- eputs ("Done." +:+ nl);; ret 0 in
  (forall a2, r2 = Some a2 -> main P w = bind (gengpl P a2) finish w3) /\
  (forall a1, r1 = Some a1 -> r2 = None ->
     main P w = bind (gengpl P a1) finish w3) /\
  (r1 = None ->
     r2 = None /\
     main P w = Ret 0 (add_stderr w ("Generating GPL..." +:+ nl +:+ "No data!"
                                      +:+ "Done." +:+ nl))).
Proof.
  intros H1 H2 w3 finish.
  assert (Hmain : main P w =
    bind (match r2 with
          | Some a2 => gengpl P a2
          | None => match r1 with
                    | Some a1 => gengpl P a1
                    | None => eputs "No data!"
                    end
          end) finish w3).
  { unfold main. rewrite (bind_Ret _ _ _ _ _ H1), (bind_Ret _ _ _ _ _ H2).
    reflexivity. }
  split; [|split].
  - intros a2 ->. exact Hmain.
  - intros a1 -> ->. exact Hmain.
  - intros ->. destruct (readaco_None _ _ H1) as [Hin ->].
    destruct w as [i o e n]. cbn [stdin] in Hin. subst i.
    rewrite readaco_eof in H2. injection H2 as <- <-.
    split; [reflexivity|]. rewrite Hmain. unfold w3, finish, bind, eputs, ret, add_stderr.
    cbn [stdin stdout stderr allocs]. now rewrite !string_app_assoc.
Qed.




(** ** Leaving the program *)

Lemma ewn_ret {A} (a : A) : exits_with_notice (ret a).
Proof. intros w s w' H. discriminate H. Qed.

Lemma ewn_bind {A B} (m : M A) (k : A -> M B) :
  exits_with_notice m -> (forall a, exits_with_notice (k a)) ->
  exits_with_notice (bind m k).
Proof.
  intros Hm Hk w s w' H. unfold bind in H.
  destruct (m w) as [a w1|s1 w1|w1] eqn:E.
  - exact (Hk a w1 s w' H).
  - injection H as <- <-. exact (Hm w s1 w1 E).
  - discriminate H.
Qed.

Lemma ewn_eputs (s : string) : exits_with_notice (eputs s).
Proof. intros w s' w' H. discriminate H. Qed.

Lemma ewn_puts (s : string) : exits_with_notice (puts s).
Proof. intros w s' w' H. discriminate H. Qed.

Lemma ewn_undefined {A} : exits_with_notice (@undefined A).
Proof. intros w s' w' H. discriminate H. Qed.

Lemma ewn_malloc (sz : Z) : exits_with_notice (malloc P sz).
Proof. intros w s' w' H. discriminate H. Qed.

Lemma ewn_readword : exits_with_notice (readword P).
Proof.
  intros w s w' H. destruct (readword_cases w) as (v & w1 & E & _).
  rewrite E in H. discriminate H.
Qed.

Lemma ewn_acomalloc (sz : Z) : exits_with_notice (acomalloc P sz).
Proof.
  apply ewn_bind; [apply ewn_malloc|]. intros [|]; [apply ewn_ret|].
  intros w s w' H. injection H as <- <-. split; [reflexivity|].
  exists (stderr w). left. reflexivity.
Qed.

Lemma ewn_mustreadword : exits_with_notice (mustreadword P).
Proof.
  apply ewn_bind; [apply ewn_readword|]. intros v.
  destruct (v =? -1); [|apply ewn_ret].
  intros w s w' H. injection H as <- <-. split; [reflexivity|].
  exists (stderr w). right. left. reflexivity.
Qed.

Lemma ewn_skipwords (k : nat) : exits_with_notice (skipwords P k).
Proof.
  induction k as [|k IH]; [apply ewn_ret|].
  apply ewn_bind; [apply ewn_mustreadword | intros _; exact IH].
Qed.

Lemma ewn_readname (k : nat) : forall buflen buf,
  exits_with_notice (readname P k buflen buf).
Proof.
  induction k as [|k IH]; intros buflen buf; [apply ewn_ret|].
  apply ewn_bind; [apply ewn_mustreadword|]. intros c. cbv zeta.
  destruct (1 <? buflen); apply IH.
Qed.

Ltac ewn_step :=
  first [ apply ewn_ret | apply ewn_eputs | apply ewn_puts | apply ewn_undefined
        | apply ewn_mustreadword | apply ewn_readword | apply ewn_skipwords
        | apply ewn_readname | apply ewn_acomalloc | apply ewn_malloc
        | apply ewn_bind; [|intros ?] ].

Lemma ewn_convertcolor (v buflen : Z) : exits_with_notice (convertcolor P v buflen).
Proof.
  unfold convertcolor. apply ewn_bind; [apply ewn_mustreadword|]. intros cs.
  destruct (negb (cs =? 0)).
  - ewn_step; [ewn_step|]. ewn_step.
    + destruct (v =? 2); repeat ewn_step.
    + repeat ewn_step.
  - do 4 (ewn_step; [ewn_step|]). destruct (v =? 1); repeat ewn_step.
Qed.

Lemma ewn_strdup (buf : string) : exits_with_notice (strdup P buf).
Proof. unfold strdup. repeat ewn_step. Qed.

Lemma ewn_readaco_colors (k : nat) : forall v j slots,
  exits_with_notice (readaco_colors P k v j slots).
Proof.
  induction k as [|k IH]; intros v j slots; [apply ewn_ret|].
  cbn [readaco_colors]. apply ewn_bind; [apply ewn_convertcolor|].
  intros [|r0 g0 b0 nm]; [apply IH|]. cbv zeta.
  destruct (v =? 2); [|apply IH].
  destruct nm as [buf|]; [|apply ewn_undefined].
  apply ewn_bind; [apply ewn_strdup|]. intros ?. apply IH.
Qed.

Lemma ewn_readaco : exits_with_notice (readaco P).
Proof.
  unfold readaco. apply ewn_bind; [apply ewn_readword|]. intros v.
  destruct (Z.eqb_spec v (-1)); [apply ewn_ret|].
  ewn_step; [ewn_step|]. ewn_step.
  - destruct (Z.eqb_spec v 1); [apply ewn_eputs|].
    destruct (Z.eqb_spec v 2); [apply ewn_eputs|].
    intros w s w' H. injection H as <- <-. split; [reflexivity|].
    exists (stderr w). right. right. exists v. auto.
  - do 4 (ewn_step; [ewn_step|]). ewn_step; [apply ewn_readaco_colors|].
    apply ewn_ret.
Qed.

Lemma ewn_print_color (a : aco) (k : Z) : exits_with_notice (print_color P a k).
Proof.
  unfold print_color. destruct (color a !! Z.to_nat k) as [[e|]|]; ewn_step.
Qed.

Lemma ewn_gengpl_row (k : nat) (a : aco) (j : Z) : forall i,
  exits_with_notice (gengpl_row P k a j i).
Proof.
  induction k as [|k IH]; intros i; [apply ewn_ret|].
  cbn [gengpl_row]. destruct (j + i =? len a); [apply ewn_ret|].
  apply ewn_bind; [apply ewn_print_color | intros _; apply IH].
Qed.

Lemma ewn_gengpl_rows (fuel : nat) (a : aco) : forall j,
  exits_with_notice (gengpl_rows P fuel a j).
Proof.
  induction fuel as [|fuel IH]; intros j; [apply ewn_ret|].
  cbn [gengpl_rows]. destruct (j <? len a); [|apply ewn_ret].
  apply ewn_bind; [apply ewn_gengpl_row | intros _; apply IH].
Qed.

Lemma ewn_gengpl (a : aco) : exits_with_notice (gengpl P a).
Proof.
  unfold gengpl. apply ewn_bind; [apply ewn_puts | intros _; apply ewn_gengpl_rows].
Qed.

Lemma ewn_main : exits_with_notice (main P).
Proof.
  unfold main. apply ewn_bind; [apply ewn_readaco|]. intros aco1.
  apply ewn_bind; [apply ewn_readaco|]. intros aco2.
  ewn_step; [ewn_step|]. ewn_step.
  - destruct aco2; [apply ewn_gengpl|]. destruct aco1; [apply ewn_gengpl | apply ewn_eputs].
  - repeat ewn_step.
Qed.



(** ** The slots of a palette *)

Lemma readaco_colors_length (k : nat) : forall v j slots w slots' w',
  readaco_colors P k v j slots w = Ret slots' w' -> length slots' = length slots.
Proof.
  induction k as [|k IH]; intros v j slots w slots' w' H.
  - injection H as <- _. reflexivity.
  - cbn [readaco_colors] in H. apply bind_inv in H as (c & w1 & _ & H).
    destruct c as [|r0 g0 b0 nm]; [exact (IH _ _ _ _ _ _ H)|]. cbv zeta in H.
    destruct (v =? 2).
    + destruct nm as [buf|]; [|discriminate H].
      apply bind_inv in H as (nm' & w2 & _ & H).
      apply IH in H. now rewrite !length_insert in H.
    + apply IH in H. now rewrite length_insert in H.
Qed.

(** Whatever the records are, the palette [readaco] returns has [len] set
    to the count word and one slot for each index below it. *)
Lemma readaco_slots_declared (w w' : world) (a : aco) :
  readaco P w = Ret (Some a) w' -> length (color a) = Z.to_nat (len a).
Proof.
  intros H. unfold readaco in H. apply bind_inv in H as (v & w1 & _ & H).
  destruct (v =? -1); [discriminate H|].
  do 2 (apply bind_inv in H as (? & ? & _ & H)).
  apply bind_inv in H as (colors & w2 & _ & H).
  do 3 (apply bind_inv in H as (? & ? & _ & H)).
  apply bind_inv in H as (slots & w3 & Hloop & H).
  injection H as <- _. cbn [color len].
  apply readaco_colors_length in Hloop. now rewrite length_replicate in Hloop.
Qed.

(** ** Where the program departs from its description *)

(** C2.  With exactly one byte left [readword] does not give the
    end-of-stream result: it returns the word made of that byte and of
    whatever the second byte of its buffer held, a value between 0 and
    65535.  A file cut short inside the last word of its last record is
    therefore converted as if it were whole. *)
Theorem readword_one_byte_left :
  (forall (b0 : byte) o e n,
     let v := byte_val b0 * 256 + byte_val (snd (stale_buf P)) in
     readword P (World [b0] o e n) = Ret v (World [] o e n) /\
     0 <= v < 65536 /\ v <> -1) /\
  main glibc_lp64 (start truncated_file)
  = Ret 0 (World [] (header +:+ nl +:+ "18 86 154 (null)")
             (version_notice 1 +:+ count_notice 1 +:+ "Generating GPL..." +:+ nl
              +:+ "Done." +:+ nl) 2).
Proof.
  split; [|vm_compute; reflexivity].
  intros b0 o e n v. split; [apply readword_short|].
  pose proof (byte_val_range b0). pose proof (byte_val_range (snd (stale_buf P))).
  unfold v. lia.
Qed.

(** C3.  An entry without a name is written with whatever the C library
    prints for a null pointer after the trailing space; on glibc the line
    of a version 1 colour ends in "(null)". *)
Theorem gengpl_nameless_entry :
  (forall v r0 g0 b0 i o e n,
     gengpl P (Aco v 1 [Some (AcoEntry r0 g0 b0 None)]) (World i o e n)
     = Ret tt (World i (o +:+ header +:+ nl +:+ dec r0 +:+ " " +:+ dec g0 +:+ " "
                          +:+ dec b0 +:+ " " +:+ printf_null P) e n)) /\
  main glibc_lp64 (start v1_file)
  = Ret 0 (World [] (header +:+ nl +:+ "18 86 154 (null)")
             (version_notice 1 +:+ count_notice 1 +:+ "Generating GPL..." +:+ nl
              +:+ "Done." +:+ nl) 2).
Proof.
  split; [|vm_compute; reflexivity].
  intros v r0 g0 b0 i o e n.
  pose proof (gengpl_filled v [AcoEntry r0 g0 b0 None] i o e n) as H.
  change (Z.of_nat (length [AcoEntry r0 g0 b0 None])) with 1 in H.
  cbn [map] in H. rewrite H.
  cbn [color_lines]. unfold color_line. cbn [r g b name].
  now rewrite !string_app_assoc, string_app_nil_r.
Qed.

(** C1.  A skipped record keeps its slot.  For every record set of
    version 1 or 2, [len] is the declared count and the slots are as many,
    one per record in order; the slot of a record that is not RGB is the
    one nothing was stored into.  On [skip_file], whose first record is in
    colourspace 1, the palette has [len] 2 and two slots, and the emitter
    goes on to read the first of them. *)
Theorem readaco_keeps_skipped_slot :
  (forall v recs bs o e n,
     (v =? 1) || (v =? 2) = true ->
     forallb record_ok recs = true ->
     is_word (Z.of_nat (length recs)) = true ->
     malloc_ok P n (sizeof_aco P) = true ->
     malloc_ok P (S n)
       (size_mul P (sizeof_acoentry P) (Z.of_nat (length recs))) = true ->
     exists slots n',
       readaco P (World (put_words (record_file v recs) bs) o e n)
       = Ret (Some (Aco v (Z.of_nat (length recs)) slots))
           (World bs o
              (e +:+ version_notice v +:+ count_notice (Z.of_nat (length recs))
               +:+ skip_notices recs) n') /\
       Forall2 record_slot recs slots) /\
  readaco glibc_lp64 (start skip_file)
  = Ret (Some (Aco 1 2 [None; Some (AcoEntry 18 86 154 None)]))
      (World [] EmptyString (version_notice 1 +:+ count_notice 2 +:+ skip_notice 1) 2) /\
  main glibc_lp64 (start skip_file)
  = Undefined
      (World [] header
         (version_notice 1 +:+ count_notice 2 +:+ skip_notice 1
          +:+ "Generating GPL..." +:+ nl) 2).
Proof.
  split; [exact readaco_record_file|]. split; vm_compute; reflexivity.
Qed.

End Properties.

(** ** Out of memory in [strdup] *)


(** ** The count of a stream that ends after its version word *)


(** ** The general statements at work on the sample streams *)

Lemma readaco_keeps_skipped_slot_witness :
  forallb record_ok skip_records = true /\
  exists slots n',
    readaco glibc_lp64
      (World (put_words (record_file 1 skip_records) []) EmptyString EmptyString 0)
    = Ret (Some (Aco 1 2 slots))
        (World [] EmptyString
           (EmptyString +:+ version_notice 1 +:+ count_notice 2
            +:+ skip_notices skip_records) n') /\
    Forall2 record_slot skip_records slots.
Proof.
  split; [reflexivity|].
  apply (proj1 (readaco_keeps_skipped_slot glibc_lp64) 1 skip_records []
           EmptyString EmptyString 0%nat); reflexivity.
Defined.

Lemma readaco_all_rgb_witness :
  forallb rgbrec_ok sample_recs = true /\
  exists a w',
    readaco glibc_lp64 (World (put_words (rgb_file 1 sample_recs) []) EmptyString EmptyString 0)
    = Ret (Some a) w' /\
    stdin w' = [] /\
    stderr w' = EmptyString +:+ version_notice 1 +:+ count_notice 2 /\
    ver a = 1 /\
    len a = 2 /\
    length (color a) = 2%nat /\
    Forall2 rgb_slot sample_recs (color a).
Proof.
  split; [reflexivity|].
  apply (readaco_all_rgb glibc_lp64 1 sample_recs [] EmptyString EmptyString 0); reflexivity.
Defined.

Lemma convertcolor_v2_name_witness :
  rgbrec_ok sample_rec = true /\
  convertcolor glibc_lp64 2 256
    (World (put_words (rgb_words 2 sample_rec) [x07]) EmptyString EmptyString 0)
  = Ret (Converted 18 86 154 (Some ("R e" +:+ String NUL EmptyString)))
      (World [x07] EmptyString EmptyString 0).
Proof.
  split; [reflexivity|].
  exact (proj1 (proj2
           (convertcolor_v2_name glibc_lp64 sample_rec [x07] EmptyString EmptyString 0 eq_refl))).
Defined.


Lemma main_selects_palette_witness :
  let w1 := World named_file EmptyString (version_notice 1 +:+ count_notice 1) 2 in
  let w2 := World [] EmptyString
              (version_notice 1 +:+ count_notice 1
               +:+ version_notice 2 +:+ count_notice 1) 5 in
  let a1 := Aco 1 1 [Some (AcoEntry 18 86 154 None)] in
  let a2 := Aco 2 1 [Some (AcoEntry 18 86 154 (Some "Re"))] in
  readaco glibc_lp64 (start two_sets) = Ret (Some a1) w1 /\
  readaco glibc_lp64 w1 = Ret (Some a2) w2 /\
  main glibc_lp64 (start two_sets)
  = Ret 0 (World [] (header +:+ nl +:+ "18 86 154 Re")
             (stderr w2 +:+ "Generating GPL..." +:+ nl +:+ "Done." +:+ nl) 5).
Proof.
  intros w1 w2 a1 a2.
  assert (H1 : readaco glibc_lp64 (start two_sets) = Ret (Some a1) w1)
    by (vm_compute; reflexivity).
  assert (H2 : readaco glibc_lp64 w1 = Ret (Some a2) w2)
    by (vm_compute; reflexivity).
  split; [exact H1|]. split; [exact H2|].
  rewrite (proj1 (main_selects_palette glibc_lp64 _ _ _ _ _ H1 H2) a2 eq_refl).
  vm_compute. reflexivity.
Defined.



(** * The rest of the program's behaviour *)

Section Coverage.

Variable P : platform.

(** ** The word readers on any stream *)

(** X1.  [readword] on a stream of at least two bytes returns 256 times
    the first byte plus the second and removes exactly these two; on an
    exhausted stream it returns -1 and changes nothing.  On any stream its
    result lies between -1 and 65535, it is -1 only if the stream was
    exhausted, and neither output stream is written. *)
Theorem readword_big_endian :
  (forall b0 b1 rest o e n,
     readword P (World (b0 :: b1 :: rest) o e n)
     = Ret (byte_val b0 * 256 + byte_val b1) (World rest o e n)) /\
  (forall o e n, readword P (World [] o e n) = Ret (-1) (World [] o e n)) /\
  (forall w, exists v w',
     readword P w = Ret v w' /\ -1 <= v < 65536 /\
     (v = -1 <-> stdin w = []) /\
     stdout w' = stdout w /\ stderr w' = stderr w /\ allocs w' = allocs w).
Proof.
  split; [exact (readword_two P)|]. split; [exact (readword_eof P)|].
  intros [i o e n]. destruct i as [|b0 [|b1 rest]].
  - eexists _, _. split; [apply readword_eof|]. cbn [stdin stdout stderr allocs].
    split; [lia|]. split; [split; reflexivity|]. auto.
  - eexists _, _. split; [apply readword_short|]. cbn [stdin stdout stderr allocs].
    pose proof (byte_val_range b0). pose proof (byte_val_range (snd (stale_buf P))).
    split; [lia|]. split; [split; [lia | discriminate]|]. auto.
  - eexists _, _. split; [apply readword_two|]. cbn [stdin stdout stderr allocs].
    pose proof (byte_val_range b0). pose proof (byte_val_range b1).
    split; [lia|]. split; [split; [lia | discriminate]|]. auto.
Qed.

(** X2.  [mustreadword] never returns -1.  On an exhausted stream it ends
    the run with status 1 after appending "Unexpected end of file!" to the
    error stream, touching nothing else; on any other stream it returns a
    value between 0 and 65535 and writes nothing. *)
Theorem mustreadword_value_or_exit (w : world) :
  (stdin w = [] /\ mustreadword P w = Exit 1 (add_stderr w eof_notice)) \/
  (stdin w <> [] /\
   exists v w',
     mustreadword P w = Ret v w' /\ 0 <= v < 65536 /\
     stdout w' = stdout w /\ stderr w' = stderr w /\ allocs w' = allocs w).
Proof.
  destruct w as [i o e n]. destruct i as [|b0 [|b1 rest]].
  - left. split; reflexivity.
  - right. split; [discriminate|]. unfold mustreadword.
    rewrite (bind_Ret _ _ _ _ _ (readword_short P b0 o e n)).
    pose proof (byte_val_range b0). pose proof (byte_val_range (snd (stale_buf P))).
    destruct (Z.eqb_spec (byte_val b0 * 256 + byte_val (snd (stale_buf P))) (-1));
      [lia|].
    eexists _, _. split; [reflexivity|]. cbn [stdout stderr allocs].
    repeat split; try reflexivity; lia.
  - right. split; [discriminate|]. unfold mustreadword.
    rewrite (bind_Ret _ _ _ _ _ (readword_two P b0 b1 rest o e n)).
    pose proof (byte_val_range b0). pose proof (byte_val_range b1).
    destruct (Z.eqb_spec (byte_val b0 * 256 + byte_val b1) (-1)); [lia|].
    eexists _, _. split; [reflexivity|]. cbn [stdout stderr allocs].
    repeat split; try reflexivity; lia.
Qed.

(** ** What each part of the program leaves alone *)

Section Frames.

Variable R : world -> world -> Prop.
Hypothesis R_refl : forall w, R w w.
Hypothesis R_trans : forall w1 w2 w3, R w1 w2 -> R w2 w3 -> R w1 w3.

Lemma preserves_ret {A} (a : A) : preserves R (ret a).
Proof. intros w. apply R_refl. Qed.

Lemma preserves_exit {A} (s : Z) : preserves R (@exit A s).
Proof. intros w. apply R_refl. Qed.

Lemma preserves_undefined {A} : preserves R (@undefined A).
Proof. intros w. apply R_refl. Qed.

Lemma preserves_bind {A B} (m : M A) (k : A -> M B) :
  preserves R m -> (forall a, preserves R (k a)) -> preserves R (bind m k).
Proof.
  intros Hm Hk w. specialize (Hm w). unfold bind.
  destruct (m w) as [a w1|s w1|w1]; cbn [final] in *; [|assumption..].
  exact (R_trans _ _ _ Hm (Hk a w1)).
Qed.

End Frames.

Lemma read_only_refl (w : world) : read_only w w.
Proof.
  split; [reflexivity|]. split; [exists []; reflexivity|].
  split; [exists EmptyString; now rewrite string_app_nil_r | lia].
Qed.

Lemma read_only_trans (w1 w2 w3 : world) :
  read_only w1 w2 -> read_only w2 w3 -> read_only w1 w3.
Proof.
  intros (Ho1 & [u1 Hi1] & [t1 He1] & Ha1) (Ho2 & [u2 Hi2] & [t2 He2] & Ha2).
  split; [congruence|]. split; [|split; [|lia]].
  - exists (u1 ++ u2). rewrite Hi1, Hi2. now rewrite app_assoc.
  - exists (t1 +:+ t2). rewrite He2, He1. now rewrite string_app_assoc.
Qed.

Lemma print_only_refl (w : world) : print_only w w.
Proof.
  repeat split. exists EmptyString. now rewrite string_app_nil_r.
Qed.

Lemma print_only_trans (w1 w2 w3 : world) :
  print_only w1 w2 -> print_only w2 w3 -> print_only w1 w3.
Proof.
  intros (Hi1 & He1 & Ha1 & [t1 Ho1]) (Hi2 & He2 & Ha2 & [t2 Ho2]).
  split; [congruence|]. split; [congruence|]. split; [congruence|].
  exists (t1 +:+ t2). rewrite Ho2, Ho1. now rewrite string_app_assoc.
Qed.

Lemma ro_eputs (s : string) : preserves read_only (eputs s).
Proof.
  intros [i o e n]. split; [reflexivity|]. split; [exists []; reflexivity|].
  split; [exists s; reflexivity | cbn; lia].
Qed.

Lemma ro_malloc (sz : Z) : preserves read_only (malloc P sz).
Proof.
  intros [i o e n]. split; [reflexivity|]. split; [exists []; reflexivity|].
  split; [exists EmptyString; cbn; now rewrite string_app_nil_r | cbn; lia].
Qed.

Lemma ro_readword : preserves read_only (readword P).
Proof.
  intros [i o e n]. destruct i as [|b0 [|b1 rest]].
  - apply read_only_refl.
  - rewrite readword_short. split; [reflexivity|]. split; [exists [b0]; reflexivity|].
    split; [exists EmptyString; cbn; now rewrite string_app_nil_r | cbn; lia].
  - rewrite readword_two. split; [reflexivity|].
    split; [exists [b0; b1]; reflexivity|].
    split; [exists EmptyString; cbn; now rewrite string_app_nil_r | cbn; lia].
Qed.

Ltac ro_bind :=
  apply (preserves_bind read_only read_only_trans); [|intros ?].

Ltac ro_leaf :=
  first [ apply (preserves_ret read_only read_only_refl)
        | apply (preserves_exit read_only read_only_refl)
        | apply (preserves_undefined read_only read_only_refl)
        | apply ro_eputs | apply ro_malloc | apply ro_readword ].

Lemma ro_mustreadword : preserves read_only (mustreadword P).
Proof.
  unfold mustreadword. ro_bind; [ro_leaf|].
  destruct (a =? -1); [ro_bind|]; ro_leaf.
Qed.

Lemma ro_acomalloc (sz : Z) : preserves read_only (acomalloc P sz).
Proof.
  unfold acomalloc. ro_bind; [ro_leaf|]. destruct a; [|ro_bind]; ro_leaf.
Qed.

Lemma ro_skipwords (k : nat) : preserves read_only (skipwords P k).
Proof.
  induction k as [|k IH]; [ro_leaf|]. cbn [skipwords].
  ro_bind; [apply ro_mustreadword | exact IH].
Qed.

Lemma ro_readname (k : nat) : forall buflen buf,
  preserves read_only (readname P k buflen buf).
Proof.
  induction k as [|k IH]; intros buflen buf; [ro_leaf|]. cbn [readname].
  ro_bind; [apply ro_mustreadword|]. cbv zeta. destruct (1 <? buflen); apply IH.
Qed.

Ltac ro_step :=
  first [ ro_leaf | apply ro_mustreadword | apply ro_acomalloc
        | apply ro_skipwords | apply ro_readname | ro_bind ].

Lemma ro_convertcolor (v buflen : Z) : preserves read_only (convertcolor P v buflen).
Proof.
  unfold convertcolor. ro_bind; [ro_step|]. destruct (negb (a =? 0)).
  - ro_bind; [ro_step|]. ro_bind.
    + destruct (v =? 2); repeat ro_step.
    + repeat ro_step.
  - do 4 (ro_bind; [ro_step|]). destruct (v =? 1); repeat ro_step.
Qed.

Lemma ro_strdup (buf : string) : preserves read_only (strdup P buf).
Proof. unfold strdup. repeat ro_step. Qed.

Lemma ro_readaco_colors (k : nat) : forall v j slots,
  preserves read_only (readaco_colors P k v j slots).
Proof.
  induction k as [|k IH]; intros v j slots; [ro_leaf|]. cbn [readaco_colors].
  ro_bind; [apply ro_convertcolor|]. destruct a as [|r0 g0 b0 nm]; [apply IH|].
  cbv zeta. destruct (v =? 2); [|apply IH].
  destruct nm as [buf|]; [|ro_leaf]. ro_bind; [apply ro_strdup | apply IH].
Qed.

(** [readaco], however it ends, has only read: standard output is as it
    was. *)
Lemma ro_readaco : preserves read_only (readaco P).
Proof.
  unfold readaco. ro_bind; [ro_step|]. destruct (a =? -1); [ro_leaf|].
  ro_bind; [ro_step|]. ro_bind.
  - destruct (a =? 1); [ro_leaf|]. destruct (a =? 2); repeat ro_step.
  - do 4 (ro_bind; [ro_step|]). ro_bind; [apply ro_readaco_colors | ro_leaf].
Qed.

Lemma po_puts (s : string) : preserves print_only (puts s).
Proof. intros [i o e n]. repeat split. exists s. reflexivity. Qed.

Lemma po_print_color (a : aco) (k : Z) : preserves print_only (print_color P a k).
Proof.
  unfold print_color. destruct (color a !! Z.to_nat k) as [[x|]|];
    [apply po_puts | apply (preserves_undefined _ print_only_refl)..].
Qed.

Lemma po_gengpl_row (k : nat) (a : aco) (j : Z) : forall i,
  preserves print_only (gengpl_row P k a j i).
Proof.
  induction k as [|k IH]; intros i; [apply (preserves_ret _ print_only_refl)|].
  cbn [gengpl_row]. destruct (j + i =? len a); [apply (preserves_ret _ print_only_refl)|].
  apply (preserves_bind _ print_only_trans); [apply po_print_color | intros _; apply IH].
Qed.

Lemma po_gengpl_rows (fuel : nat) (a : aco) : forall j,
  preserves print_only (gengpl_rows P fuel a j).
Proof.
  induction fuel as [|fuel IH]; intros j; [apply (preserves_ret _ print_only_refl)|].
  cbn [gengpl_rows]. destruct (j <? len a); [|apply (preserves_ret _ print_only_refl)].
  apply (preserves_bind _ print_only_trans); [apply po_gengpl_row | intros _; apply IH].
Qed.

Lemma ne_bind {A B} (m : M A) (k : A -> M B) :
  never_exits m -> (forall a, never_exits (k a)) -> never_exits (bind m k).
Proof.
  intros Hm Hk w s w' H. unfold bind in H.
  destruct (m w) as [a w1|s1 w1|w1] eqn:E; [|exact (Hm w s1 w1 E)|discriminate H].
  exact (Hk a w1 s w' H).
Qed.

Lemma ne_print_color (a : aco) (k : Z) : never_exits (print_color P a k).
Proof.
  intros w s w'. unfold print_color.
  destruct (color a !! Z.to_nat k) as [[x|]|]; discriminate.
Qed.

Lemma ne_gengpl_row (k : nat) (a : aco) (j : Z) : forall i,
  never_exits (gengpl_row P k a j i).
Proof.
  induction k as [|k IH]; intros i; [intros w s w'; discriminate|].
  cbn [gengpl_row]. destruct (j + i =? len a); [intros w s w'; discriminate|].
  apply ne_bind; [apply ne_print_color | intros _; apply IH].
Qed.

Lemma ne_gengpl_rows (fuel : nat) (a : aco) : forall j,
  never_exits (gengpl_rows P fuel a j).
Proof.
  induction fuel as [|fuel IH]; intros j; [intros w s w'; discriminate|].
  cbn [gengpl_rows]. destruct (j <? len a); [|intros w s w'; discriminate].
  apply ne_bind; [apply ne_gengpl_row | intros _; apply IH].
Qed.

Lemma ne_gengpl (a : aco) : never_exits (gengpl P a).
Proof.
  unfold gengpl. apply ne_bind; [intros w s w'; discriminate|].
  intros _. apply ne_gengpl_rows.
Qed.

Lemma main_exit_stdout (w w' : world) (s : Z) :
  main P w = Exit s w' ->
  s = 1 /\ stdout w' = stdout w /\ exists t, stderr w' = stderr w +:+ t.
Proof.
  intros H. split; [exact (proj1 (ewn_main P w s w' H))|].
  assert (Hro : read_only w w'); [|destruct Hro as (Ho & _ & He & _); auto].
  unfold main in H. unfold bind at 1 in H.
  pose proof (ro_readaco w) as R1.
  destruct (readaco P w) as [aco1 w1|s1 w1|w1]; cbn [final] in R1;
    [|injection H as <- <-; exact R1|discriminate H].
  unfold bind at 1 in H. pose proof (ro_readaco w1) as R2.
  destruct (readaco P w1) as [aco2 w2|s2 w2|w2]; cbn [final] in R2;
    [|injection H as <- <-; exact (read_only_trans _ _ _ R1 R2)|discriminate H].
  exfalso. revert H. apply ne_bind; [intros ? ? ?; discriminate|]. intros _.
  apply ne_bind.
  - destruct aco2; [apply ne_gengpl|].
    destruct aco1; [apply ne_gengpl | intros ? ? ?; discriminate].
  - intros _. apply ne_bind; intros; intros ? ? ?; discriminate.
Qed.

(** X3.  No partial output: when the program ends through [exit], the
    status is 1, standard output is exactly what it was at the start, and
    the error stream has only been appended to; and each call of
    [readaco], however it ends, leaves standard output as it was and takes
    its bytes from the front of the input. *)
Theorem main_exit_without_output :
  (forall w w' s,
     main P w = Exit s w' ->
     s = 1 /\ stdout w' = stdout w /\ exists t, stderr w' = stderr w +:+ t) /\
  (forall w,
     stdout (final (readaco P w)) = stdout w /\
     exists used, stdin w = used ++ stdin (final (readaco P w))).
Proof.
  split; [exact main_exit_stdout|].
  intros w. destruct (ro_readaco w) as (Ho & Hi & _). auto.
Qed.

(** X4.  [gengpl] cannot end the run through [exit]; whatever the palette,
    it reads no input, writes no diagnostic and allocates nothing, and
    what it adds to standard output starts with the four header lines. *)
Theorem gengpl_only_prints (a : aco) (w : world) :
  (forall s w', gengpl P a w <> Exit s w') /\
  stdin (final (gengpl P a w)) = stdin w /\
  stderr (final (gengpl P a w)) = stderr w /\
  allocs (final (gengpl P a w)) = allocs w /\
  exists t, stdout (final (gengpl P a w)) = stdout w +:+ header +:+ t.
Proof.
  split; [exact (ne_gengpl a w)|].
  unfold gengpl, bind, puts.
  destruct (po_gengpl_rows (Z.to_nat (len a)) a 0 (add_stdout w header))
    as (Hi & He & Ha & [t Ho]).
  destruct w as [i o e n]. cbn [add_stdout stdin stdout stderr allocs] in *.
  rewrite Hi, He, Ha, Ho. repeat split. exists t. now rewrite string_app_assoc.
Qed.

(** ** The palette of any input *)

Lemma string_length_app (s1 s2 : string) :
  String.length (s1 +:+ s2) = (String.length s1 + String.length s2)%nat.
Proof.
  induction s1 as [|c s1 IH]; [reflexivity|].
  change (S (String.length (s1 +:+ s2)) = S (String.length s1 + String.length s2)).
  now f_equal.
Qed.

Lemma readname_length (k : nat) : forall buflen buf w buf' w',
  readname P k buflen buf w = Ret buf' w' ->
  (String.length buf' <= String.length buf + Z.to_nat (buflen - 1))%nat.
Proof.
  induction k as [|k IH]; intros buflen buf w buf' w' H.
  - injection H as <- _. lia.
  - cbn [readname] in H. apply bind_inv in H as (c & w1 & _ & H). cbv zeta in H.
    destruct (Z.ltb_spec 1 buflen).
    + apply IH in H. rewrite string_length_app in H.
      change (String.length (String (char_of_int (if 255 <? c then 32 else c))
                               EmptyString)) with 1%nat in H.
      lia.
    + apply IH in H. lia.
Qed.

(** Whatever the stream holds, a name buffer handed back by
    [convertcolor] is at most 255 characters followed by the NUL, so it
    fits the 256 bytes of the caller; and there is one unless the version
    is 1. *)
Lemma convertcolor_buffer (v : Z) w r0 g0 b0 nm w' :
  convertcolor P v 256 w = Ret (Converted r0 g0 b0 nm) w' ->
  match nm with
  | None => v = 1
  | Some buf =>
      exists s, buf = s +:+ String NUL EmptyString /\ (String.length s <= 255)%nat
  end.
Proof.
  intros H. unfold convertcolor in H. apply bind_inv in H as (cs & w1 & _ & H).
  destruct (negb (cs =? 0)).
  - do 3 (apply bind_inv in H as (? & ? & _ & H)). discriminate H.
  - do 4 (apply bind_inv in H as (? & ? & _ & H)).
    destruct (Z.eqb_spec v 1).
    + injection H as _ _ _ <- _. assumption.
    + do 2 (apply bind_inv in H as (? & ? & _ & H)).
      apply bind_inv in H as (buf0 & w2 & Hname & H).
      apply bind_inv in H as (? & ? & _ & H).
      injection H as _ _ _ <- _. exists buf0. split; [reflexivity|].
      apply readname_length in Hname. cbn in Hname. lia.
Qed.

Lemma c_str_no_nul (s : string) : no_nul (c_str s) = true.
Proof.
  induction s as [|c s IH]; [reflexivity|]. cbn [c_str].
  destruct (Ascii.eqb c NUL) eqn:E; [reflexivity|]. cbn [no_nul]. now rewrite E.
Qed.

Lemma c_str_length_nul (s : string) :
  (String.length (c_str (s +:+ String NUL EmptyString)) <= String.length s)%nat.
Proof.
  induction s as [|c s IH]; [vm_compute; lia|].
  change (String c s +:+ String NUL EmptyString)
    with (String c (s +:+ String NUL EmptyString)).
  cbn [c_str]. change (String.length (String c s)) with (S (String.length s)).
  destruct (Ascii.eqb c NUL).
  - change (String.length EmptyString) with O. lia.
  - change (String.length (String c ?x)) with (S (String.length x)). lia.
Qed.

Lemma to_uchar_range (z : Z) : 0 <= to_uchar z <= 255.
Proof. unfold to_uchar. pose proof (Z.mod_pos_bound z 256). lia. Qed.

Lemma slots_ok_insert (v : Z) slots i (e : acoentry) :
  slots_ok v slots -> entry_ok v e -> slots_ok v (<[i := Some e]> slots).
Proof.
  intros Hs He k x Hk. apply list_lookup_insert_Some in Hk as [(_ & E & _) | (_ & Hk)].
  - injection E as <-. exact He.
  - exact (Hs k x Hk).
Qed.

Lemma readaco_colors_ok (k : nat) : forall v j slots w slots' w',
  readaco_colors P k v j slots w = Ret slots' w' ->
  slots_ok v slots -> slots_ok v slots'.
Proof.
  induction k as [|k IH]; intros v j slots w slots' w' H Hok.
  - injection H as <- _. exact Hok.
  - cbn [readaco_colors] in H. apply bind_inv in H as (c & w1 & Hc & H).
    destruct c as [|r0 g0 b0 nm]; [exact (IH _ _ _ _ _ _ H Hok)|]. cbv zeta in H.
    assert (Hbytes : forall x, entry_ok v (AcoEntry (to_uchar r0) (to_uchar g0)
                                             (to_uchar b0) x) <->
                               match x with
                               | None => True
                               | Some s => v = 2 /\ (String.length s <= 255)%nat /\
                                           no_nul s = true
                               end).
    { intros x. unfold entry_ok. cbn [r g b name].
      pose proof (to_uchar_range r0). pose proof (to_uchar_range g0).
      pose proof (to_uchar_range b0). tauto. }
    destruct (Z.eqb_spec v 2) as [Ev|Ev].
    + destruct nm as [buf|]; [|discriminate H].
      apply bind_inv in H as (nm' & w2 & Hdup & H).
      apply (IH _ _ _ _ _ _ H). apply slots_ok_insert.
      * apply slots_ok_insert; [exact Hok | now apply Hbytes].
      * apply Hbytes. unfold strdup, bind, malloc, ret in Hdup.
        destruct (convertcolor_buffer _ _ _ _ _ _ _ Hc) as (s & -> & Hlen).
        destruct (malloc_ok P _ _); injection Hdup as <- _; [|exact I].
        split; [exact Ev|]. split; [|apply c_str_no_nul].
        pose proof (c_str_length_nul s). lia.
    + apply (IH _ _ _ _ _ _ H). apply slots_ok_insert; [exact Hok | now apply Hbytes].
Qed.

(** X5.  Whatever bytes the input holds, a palette returned by [readaco]
    has version 1 or 2, a length between -1 and 65535 and as many slots
    as its length says; every entry stored in it has r, g and b between 0
    and 255, and a name only in version 2, of at most 255 characters and
    without NUL. *)
Theorem readaco_palette_invariant (w w' : world) (a : aco) :
  readaco P w = Ret (Some a) w' ->
  (ver a = 1 \/ ver a = 2) /\
  -1 <= len a <= 65535 /\
  length (color a) = Z.to_nat (len a) /\
  forall k e, color a !! k = Some (Some e) -> entry_ok (ver a) e.
Proof.
  intros H. pose proof (readaco_slots_declared P w w' a H) as Hslots.
  unfold readaco in H. apply bind_inv in H as (v & w1 & _ & H).
  destruct (v =? -1); [discriminate H|].
  apply bind_inv in H as (? & ? & _ & H).
  apply bind_inv in H as (? & ? & Hver & H).
  apply bind_inv in H as (colors & w2 & Hcount & H).
  do 3 (apply bind_inv in H as (? & ? & _ & H)).
  apply bind_inv in H as (slots & w3 & Hloop & H).
  injection H as <- _. cbn [ver len color] in *.
  split; [|split; [|split; [exact Hslots|]]].
  - destruct (Z.eqb_spec v 1); [auto|]. destruct (Z.eqb_spec v 2); [auto|].
    apply bind_inv in Hver as (? & ? & _ & Hver). discriminate Hver.
  - destruct (readword_cases P x2) as (c0 & w0 & E & Hc).
    rewrite E in Hcount. injection Hcount as <- _.
    destruct Hc as [(-> & _) | (Hc & _)]; lia.
  - apply (readaco_colors_ok _ _ _ _ _ _ _ Hloop).
    intros k e Hk. apply lookup_replicate in Hk as [Hk _]. discriminate Hk.
Qed.

(** ** Streams that stop too early *)

Lemma eof_exit_bind {A B} (m : M A) (k : A -> M B) w :
  eof_exit (m w) -> eof_exit (bind m k w).
Proof.
  intros (w' & E & H). exists w'. split; [|exact H]. now apply bind_Exit.
Qed.

Lemma eof_exit_after {A B} (m : M A) (k : A -> M B) w a w1 :
  m w = Ret a w1 -> eof_exit (k a w1) -> eof_exit (bind m k w).
Proof. intros E H. now rewrite (bind_Ret _ _ _ _ _ E). Qed.

Lemma mustreadword_nil o e n : eof_exit (mustreadword P (World [] o e n)).
Proof.
  exists (World [] o (e +:+ eof_notice) n). split; [reflexivity|].
  split; [reflexivity|]. exists e. reflexivity.
Qed.

(** A stream of fewer whole words than [skipwords] is to pass over. *)
Lemma skipwords_short (k : nat) : forall ws o e n,
  forallb is_word ws = true -> (length ws < k)%nat ->
  eof_exit (skipwords P k (World (put_words ws []) o e n)).
Proof.
  induction k as [|k IH]; intros ws o e n Hws Hlen; [lia|].
  cbn [skipwords]. destruct ws as [|x ws].
  - apply eof_exit_bind, mustreadword_nil.
  - cbn [forallb] in Hws. apply andb_true_iff in Hws as [Hx Hws].
    cbn [put_words]. eapply eof_exit_after; [exact (mustreadword_bytes P x _ o e n Hx)|].
    apply IH; [exact Hws | cbn [length] in Hlen; lia].
Qed.

(** The same for the name loop. *)
Lemma readname_short (k : nat) : forall ws buflen buf o e n,
  forallb is_word ws = true -> (length ws < k)%nat ->
  eof_exit (readname P k buflen buf (World (put_words ws []) o e n)).
Proof.
  induction k as [|k IH]; intros ws buflen buf o e n Hws Hlen; [lia|].
  cbn [readname]. destruct ws as [|x ws].
  - apply eof_exit_bind, mustreadword_nil.
  - cbn [forallb] in Hws. apply andb_true_iff in Hws as [Hx Hws].
    cbn [put_words]. eapply eof_exit_after; [exact (mustreadword_bytes P x _ o e n Hx)|].
    cbv zeta. destruct (1 <? buflen); (apply IH; [exact Hws | cbn [length] in Hlen; lia]).
Qed.

Lemma forallb_take {A} (f : A -> bool) (l : list A) (m : nat) :
  forallb f l = true -> forallb f (take m l) = true.
Proof.
  revert m. induction l as [|x l IH]; intros m H; [now destruct m|].
  destruct m as [|m]; [reflexivity|]. cbn [forallb firstn] in *.
  apply andb_true_iff in H as [Hx Hl]. now rewrite Hx, IH.
Qed.

Ltac read1 :=
  rewrite ?bind_bind;
  first
    [ rewrite (bind_Ret _ _ _ _ _ (mustreadword_bytes P 0 _ _ _ _ eq_refl))
    | match goal with
      | H : is_word ?x = true |- context [byte_of ?x :: _] =>
          rewrite (bind_Ret _ _ _ _ _ (mustreadword_bytes P x _ _ _ _ H))
      end ].

Ltac stop_eof :=
  cbn [firstn app put_words];
  repeat read1;
  rewrite ?bind_bind;
  solve [ apply eof_exit_bind, mustreadword_nil ].

(** A record cut off after any number of its words. *)
Lemma convertcolor_short (v : Z) (rc : record) (m : nat) o e n :
  record_ok rc = true ->
  (m < length (record_words v rc))%nat ->
  eof_exit (convertcolor P v 256
              (World (put_words (take m (record_words v rc)) []) o e n)).
Proof.
  intros Hok Hm. destruct rc as [c | cs w1 w2 w3 w4 t units].
  - cbn [record_ok] in Hok.
    destruct (rgbrec_ok_spec c Hok) as (Hr & Hg & Hb & Hz & Hx & Hl & Hu & Ht).
    cbn [record_words] in *. unfold rgb_words in *. unfold convertcolor.
    destruct m as [|m]; [stop_eof|]. cbn [firstn app put_words]. read1.
    cbn [Z.eqb negb].
    do 4 (destruct m as [|m]; [stop_eof|]; cbn [firstn app put_words]; read1).
    destruct (v =? 1); [cbn [length app] in Hm; lia|].
    destruct m as [|m]; [stop_eof|]. cbn [firstn app put_words]. read1.
    destruct m as [|m]; [stop_eof|]. cbn [firstn app put_words]. read1.
    replace (Z.to_nat (rec_namelen c - 1)) with (length (rec_units c))
      by (unfold rec_namelen; lia).
    cbn [length app] in Hm. rewrite length_app in Hm. cbn [length] in Hm.
    destruct (Nat.lt_ge_cases m (length (rec_units c))) as [Hlt|Hge].
    + rewrite take_app_le by lia. apply eof_exit_bind.
      apply readname_short; [now apply forallb_take|].
      rewrite length_take. lia.
    + replace m with (length (rec_units c)) by lia. rewrite take_app_length.
      pose proof (readname_put P (rec_units c) 256 EmptyString [] o e n Hu) as E.
      eapply eof_exit_after; [exact E|]. apply eof_exit_bind, mustreadword_nil.
  - cbn [record_ok] in Hok. rewrite !andb_true_iff in Hok.
    destruct Hok as (((((Hcs & Hnz) & H4) & Ht) & Hl) & Hu).
    cbn [forallb] in H4. rewrite !andb_true_iff in H4.
    destruct H4 as (H1 & H2 & H3 & H4 & _).
    cbn [record_words] in *. unfold convertcolor.
    destruct m as [|m]; [stop_eof|]. cbn [firstn app put_words]. read1.
    rewrite Hnz. cbn [skipwords]. rewrite !bind_bind.
    do 4 (destruct m as [|m]; [stop_eof|]; cbn [firstn app put_words]; read1).
    unfold ret at 1. unfold bind at 1.
    destruct (v =? 2); [|cbn [length app] in Hm; lia].
    rewrite !bind_bind.
    destruct m as [|m]; [stop_eof|]. cbn [firstn app put_words]. read1.
    destruct m as [|m]; [stop_eof|]. cbn [firstn app put_words]. read1.
    rewrite Nat2Z.id. apply eof_exit_bind.
    cbn [length app] in Hm.
    apply skipwords_short; [now apply forallb_take|].
    rewrite length_take. lia.
Qed.

(** One turn of the loop of [readaco] on a whole record of either kind
    leads to the next turn behind the record. *)
Lemma readaco_colors_step (v : Z) (rc : record) (k : nat) j slots bs o e n :
  record_ok rc = true ->
  exists slots' e' n',
    readaco_colors P (S k) v j slots
      (World (put_words (record_words v rc) bs) o e n)
    = readaco_colors P k v (j + 1) slots' (World bs o e' n').
Proof.
  intros Hok. destruct rc as [c | cs w1 w2 w3 w4 t units].
  - cbn [record_ok record_words] in *. cbn [readaco_colors].
    rewrite (bind_Ret _ _ _ _ _ (convertcolor_rgb P v c bs o e n Hok)). cbv zeta.
    destruct (Z.eqb_spec v 2) as [->|Hv].
    + cbn [Z.eqb Pos.eqb]. unfold strdup, bind at 1, bind at 1, malloc, ret.
      eexists _, _, _. reflexivity.
    + eexists _, _, _. reflexivity.
  - eexists _, _, _. apply readaco_colors_step_skip, Hok.
Qed.

(** The loop on a record set cut off after any number of its words. *)
Lemma readaco_colors_short (v : Z) (recs : list record) :
  forall (m : nat) j slots o e n,
  forallb record_ok recs = true ->
  (m < length (flat_map (record_words v) recs))%nat ->
  eof_exit (readaco_colors P (length recs) v j slots
              (World (put_words (take m (flat_map (record_words v) recs)) [])
                 o e n)).
Proof.
  induction recs as [|rc recs IH]; intros m j slots o e n Hok Hm;
    [cbn [flat_map length] in Hm; lia|].
  cbn [forallb] in Hok. apply andb_true_iff in Hok as [Hrc Hok].
  cbn [flat_map length] in *. rewrite length_app in Hm.
  destruct (Nat.lt_ge_cases m (length (record_words v rc))) as [Hlt|Hge].
  - rewrite take_app_le by lia. cbn [readaco_colors].
    apply eof_exit_bind, convertcolor_short; assumption.
  - rewrite take_app_ge by lia. rewrite put_words_app.
    destruct (readaco_colors_step v rc (length recs) j slots
                (put_words (take (m - length (record_words v rc))
                              (flat_map (record_words v) recs)) []) o e n Hrc)
      as (slots' & e' & n' & ->).
    apply IH; [exact Hok | lia].
Qed.

(** X6.  A record set of version 1 or 2 cut off at a word boundary, after
    at least the version and count words and before its last word, is
    refused: [readaco] ends the run with status 1 and "Unexpected end of
    file!" once the input is exhausted, and so does [main], with nothing
    written to standard output. *)
Theorem truncated_file_is_refused (v : Z) (recs : list record) (k : nat) o e n :
  (v =? 1) || (v =? 2) = true ->
  forallb record_ok recs = true ->
  is_word (Z.of_nat (length recs)) = true ->
  malloc_ok P n (sizeof_aco P) = true ->
  malloc_ok P (S n)
    (size_mul P (sizeof_acoentry P) (Z.of_nat (length recs))) = true ->
  (2 <= k < length (record_file v recs))%nat ->
  eof_exit (readaco P (World (put_words (take k (record_file v recs)) []) o e n)) /\
  exists w',
    main P (World (put_words (take k (record_file v recs)) []) o e n) = Exit 1 w' /\
    stdout w' = o /\ stdin w' = [] /\
    exists pre, stderr w' = pre +:+ eof_notice.
Proof.
  intros Hv Hrecs Hcount Hm1 Hm2 [Hk2 Hk].
  assert (Hread : eof_exit (readaco P
            (World (put_words (take k (record_file v recs)) []) o e n))).
  { unfold record_file in *. destruct k as [|[|k]]; [lia..|].
    cbn [firstn]. rewrite (readaco_header P _ _ _ _ _ _ _ Hv Hcount Hm1 Hm2).
    rewrite Nat2Z.id. apply eof_exit_bind, readaco_colors_short; [exact Hrecs|].
    cbn [length] in Hk. lia. }
  split; [exact Hread|].
  destruct Hread as (w' & E & Hin & Herr). exists w'.
  assert (Hmain : main P (World (put_words (take k (record_file v recs)) []) o e n)
                  = Exit 1 w') by (unfold main; now apply bind_Exit).
  split; [exact Hmain|]. split; [|auto].
  exact (proj1 (proj2 (main_exit_stdout _ _ _ Hmain))).
Qed.

(** ** Whole files *)

Lemma name_char_zero : name_char 0 = NUL.
Proof. reflexivity. Qed.

Lemma name_char_not_nul (u : Z) :
  is_word u = true -> u <> 0 -> Ascii.eqb (name_char u) NUL = false.
Proof.
  intros Hu%is_word_spec Hne. unfold name_char.
  destruct (Z.ltb_spec 255 u); [reflexivity|].
  apply Ascii.eqb_neq. intros E. unfold char_of_int in E.
  apply (f_equal N_of_ascii) in E. rewrite N_ascii_embedding in E by lia.
  change (N_of_ascii NUL) with 0%N in E. lia.
Qed.

(** What [strdup] copies out of the name buffer. *)
Lemma c_str_stored (units : list Z) : forall m,
  forallb is_word units = true ->
  c_str (String.string_of_list_ascii (take m (map name_char units))
         +:+ String NUL EmptyString)
  = String.string_of_list_ascii (take m (map name_char (before_zero units))).
Proof.
  induction units as [|u units IH]; intros m Hu.
  - destruct m; reflexivity.
  - cbn [forallb] in Hu. apply andb_true_iff in Hu as [Hu Hus].
    destruct m as [|m]; [reflexivity|]. cbn [map firstn before_zero].
    change (String.string_of_list_ascii (name_char u :: ?l) +:+ ?t)
      with (String (name_char u) (String.string_of_list_ascii l +:+ t)).
    cbn [c_str]. destruct (Z.eqb_spec u 0) as [->|Hne].
    + reflexivity.
    + rewrite (name_char_not_nul u Hu Hne). cbn [map firstn].
      change (String.string_of_list_ascii (name_char u :: ?l))
        with (String (name_char u) (String.string_of_list_ascii l)).
      f_equal. apply IH, Hus.
Qed.

(** The loop of [readaco] on RGB records when every [strdup] succeeds:
    the slots are filled with the entries of the records, in order. *)
Lemma readaco_colors_exact (v : Z) (recs : list rgbrec) :
  forall pre bs o e n,
  forallb rgbrec_ok recs = true ->
  ((v =? 2) = true -> forall k sz, malloc_ok P k sz = true) ->
  readaco_colors P (length recs) v (Z.of_nat (length pre))
    (pre ++ replicate (length recs) None)
    (World (put_words (flat_map (rgb_words v) recs) bs) o e n)
  = Ret (pre ++ map (fun c => Some (entry_of v c)) recs)
      (World bs o e (n + (if v =? 2 then length recs else 0))).
Proof.
  induction recs as [|c recs IH]; intros pre bs o e n Hok Hdup.
  - cbn [length readaco_colors replicate flat_map put_words map].
    unfold ret. repeat f_equal. destruct (v =? 2); lia.
  - cbn [forallb] in Hok. apply andb_true_iff in Hok as [Hc Hok].
    cbn [length replicate flat_map map readaco_colors]. rewrite put_words_app.
    rewrite (bind_Ret _ _ _ _ _ (convertcolor_rgb P v c _ o e n Hc)). cbv zeta.
    rewrite Nat2Z.id, !insert_at_length.
    destruct (rgbrec_ok_spec c Hc) as (Hr & Hg & Hb & _ & _ & _ & Hu & _).
    rewrite !to_uchar_quot by assumption.
    replace (Z.of_nat (length pre) + 1)
      with (Z.of_nat (length (pre ++ [Some (entry_of v c)])))
      by (rewrite length_app; simpl; lia).
    assert (Hnext : forall n1,
      readaco_colors P (length recs) v
        (Z.of_nat (length (pre ++ [Some (entry_of v c)])))
        (pre ++ Some (entry_of v c) :: replicate (length recs) None)
        (World (put_words (flat_map (rgb_words v) recs) bs) o e n1)
      = Ret (pre ++ Some (entry_of v c) :: map (fun c0 => Some (entry_of v c0)) recs)
          (World bs o e (n1 + (if v =? 2 then length recs else 0)))).
    { intros n1.
      replace (pre ++ Some (entry_of v c) :: replicate (length recs) None)
        with ((pre ++ [Some (entry_of v c)]) ++ replicate (length recs) None)
        by (rewrite <- app_assoc; reflexivity).
      rewrite (IH _ bs o e n1 Hok Hdup). now rewrite <- app_assoc. }
    unfold entry_of in *. destruct (Z.eqb_spec v 2) as [->|Hv].
    + cbn [Z.eqb Pos.eqb] in *. unfold strdup at 1. rewrite bind_bind.
      unfold malloc at 1. unfold bind at 1. unfold bind at 1. unfold ret at 1.
      unfold bump_allocs. cbn [stdin stdout stderr allocs].
      rewrite (Hdup eq_refl). rewrite insert_at_length.
      replace (c_str (stored_name (rec_units c) +:+ String NUL EmptyString))
        with (stored_name (before_zero (rec_units c)))
        by (symmetry; exact (c_str_stored _ 255%nat Hu)).
      rewrite Hnext. do 2 f_equal. lia.
    + destruct (v =? 1); rewrite Hnext; reflexivity.
Qed.

(** [readaco] on a record set of RGB records when every [strdup]
    succeeds. *)
Lemma readaco_exact (v : Z) (recs : list rgbrec) bs o e n :
  (v =? 1) || (v =? 2) = true ->
  forallb rgbrec_ok recs = true ->
  is_word (Z.of_nat (length recs)) = true ->
  malloc_ok P n (sizeof_aco P) = true ->
  malloc_ok P (S n)
    (size_mul P (sizeof_acoentry P) (Z.of_nat (length recs))) = true ->
  ((v =? 2) = true -> forall k sz, malloc_ok P k sz = true) ->
  readaco P (World (put_words (rgb_file v recs) bs) o e n)
  = Ret (Some (Aco v (Z.of_nat (length (map (entry_of v) recs)))
                 (map Some (map (entry_of v) recs))))
      (World bs o
         (e +:+ version_notice v +:+ count_notice (Z.of_nat (length recs)))
         (S (S n) + (if v =? 2 then length recs else 0))).
Proof.
  intros Hv Hrecs Hcount Hm1 Hm2 Hdup. unfold rgb_file.
  rewrite (readaco_header P _ _ _ _ _ _ _ Hv Hcount Hm1 Hm2). rewrite Nat2Z.id.
  pose proof (readaco_colors_exact v recs [] bs o
                (e +:+ version_notice v +:+ count_notice (Z.of_nat (length recs)))
                (S (S n)) Hrecs Hdup) as E.
  change (Z.of_nat (length (@nil (option acoentry)))) with 0 in E.
  change ([] ++ ?l) with l in E.
  rewrite (bind_Ret _ _ _ _ _ E). unfold ret.
  now rewrite length_map, map_map.
Qed.

(** [main] once the second call of [readaco] has returned a palette with
    all its slots filled. *)
Lemma main_emits_second (w w1 : world) (r1 : option aco) v es i o e n :
  readaco P w = Ret r1 w1 ->
  readaco P w1
  = Ret (Some (Aco v (Z.of_nat (length es)) (map Some es))) (World i o e n) ->
  main P w
  = Ret 0 (World i (o +:+ header +:+ color_lines P es)
             (e +:+ "Generating GPL..." +:+ nl +:+ "Done." +:+ nl) n).
Proof.
  intros H1 H2. unfold main.
  rewrite (bind_Ret _ _ _ _ _ H1), (bind_Ret _ _ _ _ _ H2).
  rewrite (bind_Ret _ _ _ _ _ (eputs_World _ _ _ _ _)).
  rewrite (bind_Ret _ _ _ _ _ (gengpl_filled P v es i o _ n)).
  rewrite (bind_Ret _ _ _ _ _ (eputs_World _ _ _ _ _)).
  unfold ret. now rewrite !string_app_assoc.
Qed.

(** [main] when the first call has used up the input. *)
Lemma main_emits_first (w : world) v es o e n :
  readaco P w
  = Ret (Some (Aco v (Z.of_nat (length es)) (map Some es))) (World [] o e n) ->
  main P w
  = Ret 0 (World [] (o +:+ header +:+ color_lines P es)
             (e +:+ "Generating GPL..." +:+ nl +:+ "Done." +:+ nl) n).
Proof.
  intros H1. unfold main.
  rewrite (bind_Ret _ _ _ _ _ H1), (bind_Ret _ _ _ _ _ (readaco_eof P o e n)).
  rewrite (bind_Ret _ _ _ _ _ (eputs_World _ _ _ _ _)).
  rewrite (bind_Ret _ _ _ _ _ (gengpl_filled P v es [] o _ n)).
  rewrite (bind_Ret _ _ _ _ _ (eputs_World _ _ _ _ _)).
  unfold ret. now rewrite !string_app_assoc.
Qed.

(** X7.  A version 1 file whose records are all RGB is converted whole:
    the program returns 0 and standard output receives the header and,
    for each record in order, a line with the three components divided by
    256 followed by what the C library prints for the null name. *)
Theorem main_converts_version1 (recs : list rgbrec) o e n :
  forallb rgbrec_ok recs = true ->
  is_word (Z.of_nat (length recs)) = true ->
  malloc_ok P n (sizeof_aco P) = true ->
  malloc_ok P (S n)
    (size_mul P (sizeof_acoentry P) (Z.of_nat (length recs))) = true ->
  main P (World (put_words (rgb_file 1 recs) []) o e n)
  = Ret 0
      (World [] (o +:+ header +:+ color_lines P (map (entry_of 1) recs))
         (e +:+ version_notice 1 +:+ count_notice (Z.of_nat (length recs))
          +:+ "Generating GPL..." +:+ nl +:+ "Done." +:+ nl)
         (S (S n))) /\
  forall c,
    color_line P (entry_of 1 c)
    = nl +:+ dec (rec_r c ÷ 256) +:+ " " +:+ dec (rec_g c ÷ 256) +:+ " "
      +:+ dec (rec_b c ÷ 256) +:+ " " +:+ printf_null P.
Proof.
  intros Hrecs Hcount Hm1 Hm2. split; [|reflexivity].
  assert (Hdup : (1 =? 2) = true -> forall k sz, malloc_ok P k sz = true)
    by discriminate.
  pose proof (readaco_exact 1 recs [] o e n eq_refl Hrecs Hcount Hm1 Hm2 Hdup) as E.
  rewrite (main_emits_first _ _ _ _ _ _ E). cbn [Z.eqb Pos.eqb].
  rewrite Nat.add_0_r. now rewrite !string_app_assoc.
Qed.

(** X8.  Of two record sets of RGB records that follow each other on the
    input, the second is the one converted: standard output receives the
    header and the lines of the second set only.  Whatever follows the
    second set is left unread. *)
Theorem main_converts_second_set (va vb : Z) (ra rb : list rgbrec) bs o e n :
  (forall k sz, malloc_ok P k sz = true) ->
  (va =? 1) || (va =? 2) = true ->
  (vb =? 1) || (vb =? 2) = true ->
  forallb rgbrec_ok ra = true -> forallb rgbrec_ok rb = true ->
  is_word (Z.of_nat (length ra)) = true ->
  is_word (Z.of_nat (length rb)) = true ->
  exists n',
    main P (World (put_words (rgb_file va ra) (put_words (rgb_file vb rb) bs)) o e n)
    = Ret 0
        (World bs (o +:+ header +:+ color_lines P (map (entry_of vb) rb))
           (e +:+ version_notice va +:+ count_notice (Z.of_nat (length ra))
            +:+ version_notice vb +:+ count_notice (Z.of_nat (length rb))
            +:+ "Generating GPL..." +:+ nl +:+ "Done." +:+ nl) n').
Proof.
  intros Hall Hva Hvb Hra Hrb Hca Hcb.
  pose proof (readaco_exact va ra (put_words (rgb_file vb rb) bs) o e n
                Hva Hra Hca (Hall _ _) (Hall _ _) (fun _ => Hall)) as Ea.
  pose proof (readaco_exact vb rb bs o
                (e +:+ version_notice va +:+ count_notice (Z.of_nat (length ra)))
                (S (S n) + (if va =? 2 then length ra else 0))
                Hvb Hrb Hcb (Hall _ _) (Hall _ _) (fun _ => Hall)) as Eb.
  eexists. rewrite (main_emits_second _ _ _ _ _ _ _ _ _ Ea Eb).
  now rewrite !string_app_assoc.
Qed.

(** X9.  The names of version 2.  When every allocation is granted, the
    entry made from an RGB record of a version 2 file is named by its
    name units in front of the first unit of value 0, no more than the
    first 255 of them, each unit above 255 standing as a space; the
    palette holds these entries in order and the program prints each name
    after the three components. *)
Theorem version2_names (recs : list rgbrec) o e n :
  (forall k sz, malloc_ok P k sz = true) ->
  forallb rgbrec_ok recs = true ->
  is_word (Z.of_nat (length recs)) = true ->
  readaco P (World (put_words (rgb_file 2 recs) []) o e n)
  = Ret (Some (Aco 2 (Z.of_nat (length recs)) (map Some (map (entry_of 2) recs))))
      (World [] o (e +:+ version_notice 2 +:+ count_notice (Z.of_nat (length recs)))
         (S (S n) + length recs)) /\
  main P (World (put_words (rgb_file 2 recs) []) o e n)
  = Ret 0
      (World [] (o +:+ header +:+ color_lines P (map (entry_of 2) recs))
         (e +:+ version_notice 2 +:+ count_notice (Z.of_nat (length recs))
          +:+ "Generating GPL..." +:+ nl +:+ "Done." +:+ nl)
         (S (S n) + length recs)) /\
  forall c,
    name (entry_of 2 c)
    = Some (String.string_of_list_ascii
              (take 255 (map name_char (before_zero (rec_units c))))) /\
    color_line P (entry_of 2 c)
    = nl +:+ dec (rec_r c ÷ 256) +:+ " " +:+ dec (rec_g c ÷ 256) +:+ " "
      +:+ dec (rec_b c ÷ 256) +:+ " "
      +:+ String.string_of_list_ascii
            (take 255 (map name_char (before_zero (rec_units c)))).
Proof.
  intros Hall Hrecs Hcount.
  pose proof (readaco_exact 2 recs [] o e n eq_refl Hrecs Hcount
                (Hall _ _) (Hall _ _) (fun _ => Hall)) as E.
  cbn [Z.eqb Pos.eqb] in E. split; [|split].
  - rewrite E. now rewrite length_map.
  - rewrite (main_emits_first _ _ _ _ _ _ E). now rewrite !string_app_assoc.
  - intros c. split; reflexivity.
Qed.

(** ** Edges of the record layout *)

Lemma size_mul_zero (a : Z) : size_mul P a 0 = 0.
Proof.
  unfold size_mul, to_size_t. rewrite Zmod_0_l, Z.mul_0_r. apply Zmod_0_l.
Qed.

(** X10.  A record set that declares no colour asks the allocator for a
    block of 0 bytes.  Where such a request is granted the palette is
    empty, with no slot; where it is refused the run ends with "Out of
    memory!" and status 1, although nothing is wrong with the file. *)
Theorem zero_colours_allocation (v : Z) bs o e n :
  (v =? 1) || (v =? 2) = true ->
  malloc_ok P n (sizeof_aco P) = true ->
  size_mul P (sizeof_acoentry P) 0 = 0 /\
  readaco P (World (put_words [v; 0] bs) o e n)
  = if malloc_ok P (S n) 0
    then Ret (Some (Aco v 0 []))
           (World bs o (e +:+ version_notice v +:+ count_notice 0) (S (S n)))
    else Exit 1
           (World bs o (e +:+ version_notice v +:+ count_notice 0 +:+ oom_notice)
              (S (S n))).
Proof.
  intros Hv Hm1. split; [apply size_mul_zero|].
  destruct (malloc_ok P (S n) 0) eqn:Hm2.
  - assert (Hm2' : malloc_ok P (S n) (size_mul P (sizeof_acoentry P) 0) = true)
      by now rewrite size_mul_zero.
    rewrite (readaco_header P v 0 [] bs o e n Hv eq_refl Hm1 Hm2'). reflexivity.
  - assert (Hvw : is_word v = true).
    { apply orb_true_iff in Hv as [->%Z.eqb_eq | ->%Z.eqb_eq]; reflexivity. }
    unfold readaco. cbn [put_words].
    rewrite (bind_Ret _ _ _ _ _ (readword_bytes P v _ o e n Hvw)).
    replace (v =? -1) with false
      by (apply orb_true_iff in Hv as [->%Z.eqb_eq | ->%Z.eqb_eq]; reflexivity).
    rewrite (bind_Ret _ _ _ _ _ (eputs_World _ _ _ _ _)).
    assert (Hnotice :
      (if v =? 1 then eputs (" 1 (photoshop < 7.0)" +:+ nl)
       else if v =? 2 then eputs (" 2 (photoshop >= 7.0)" +:+ nl)
       else _ <- eputs ("Unknown ACO file version " +:+ dec v +:+ ". Exiting..." +:+ nl);;
            exit 1)
      = eputs ((if v =? 1 then " 1 (photoshop < 7.0)" else " 2 (photoshop >= 7.0)") +:+ nl)).
    { apply orb_true_iff in Hv as [->%Z.eqb_eq | ->%Z.eqb_eq]; reflexivity. }
    rewrite Hnotice.
    rewrite (bind_Ret _ _ _ _ _ (eputs_World _ _ _ _ _)).
    rewrite (bind_Ret _ _ _ _ _ (readword_bytes P 0 _ _ _ _ eq_refl)).
    rewrite (bind_Ret _ _ _ _ _ (eputs_World _ _ _ _ _)).
    rewrite (bind_Ret _ _ _ _ _ (acomalloc_ok P _ _ _ _ _ Hm1)).
    rewrite size_mul_zero.
    rewrite (bind_Exit _ _ _ _ _ (acomalloc_fail P _ _ _ _ _ Hm2)).
    unfold version_notice, count_notice, oom_notice. now rewrite !string_app_assoc.
Qed.


(** X12.  A name length word of 0.  Converting a version 2 record whose
    name length word is 0 still reads one word behind it, as for a length
    of 1, and the name is empty; skipping such a record reads none.  So
    behind a length word 0 the two ways leave the stream one word
    apart. *)
Theorem name_length_zero (cs rw gw bw zw xw tw : Z) bs o e n :
  forallb is_word [cs; rw; gw; bw; zw; xw; tw] = true -> cs <> 0 ->
  convertcolor P 2 256 (World (put_words [0; rw; gw; bw; zw; xw; 0; tw] bs) o e n)
  = Ret (Converted (rw ÷ 256) (gw ÷ 256) (bw ÷ 256) (Some (String NUL EmptyString)))
      (World bs o e n) /\
  convertcolor P 2 256 (World (put_words [0; rw; gw; bw; zw; xw; 1; tw] bs) o e n)
  = Ret (Converted (rw ÷ 256) (gw ÷ 256) (bw ÷ 256) (Some (String NUL EmptyString)))
      (World bs o e n) /\
  convertcolor P 2 256 (World (put_words [cs; rw; gw; bw; zw; xw; 0; tw] bs) o e n)
  = Ret Skipped (World (put_words [tw] bs) o (e +:+ skip_notice cs) n).
Proof.
  intros Hw Hne. cbn [forallb] in Hw. rewrite !andb_true_iff in Hw.
  destruct Hw as (Hcs & Hr & Hg & Hb & Hz & Hx & Ht & _).
  split; [|split].
  - unfold convertcolor. cbn [put_words]. read1. cbn [Z.eqb Pos.eqb negb].
    do 5 read1. rewrite (bind_Ret _ _ _ _ _ (mustreadword_bytes P 0 _ _ _ _ eq_refl)).
    change (Z.to_nat (0 - 1)) with 0%nat. cbn [readname].
    rewrite (bind_Ret (ret EmptyString) _ _ _ _ eq_refl). read1. reflexivity.
  - unfold convertcolor. cbn [put_words]. read1. cbn [Z.eqb Pos.eqb negb].
    do 5 read1. rewrite (bind_Ret _ _ _ _ _ (mustreadword_bytes P 1 _ _ _ _ eq_refl)).
    change (Z.to_nat (1 - 1)) with 0%nat. cbn [readname].
    rewrite (bind_Ret (ret EmptyString) _ _ _ _ eq_refl). read1. reflexivity.
  - assert (Hok : record_ok (NonRgb cs rw gw bw zw xw []) = true).
    { cbn [record_ok forallb length]. rewrite Hcs, Hr, Hg, Hb, Hz, Hx.
      destruct (Z.eqb_spec cs 0); [contradiction | reflexivity]. }
    exact (convertcolor_skip P 2 cs rw gw bw zw xw [] (put_words [tw] bs) o e n Hok).
Qed.

(** ** What follows a record set, and skipped records at the emitter *)

Lemma readaco_unknown_version (v : Z) bs o e n :
  is_word v = true -> v <> 1 -> v <> 2 ->
  readaco P (World (put_words [v] bs) o e n)
  = Exit 1 (World bs o (e +:+ "reading ACO stream version:" +:+ version_error v) n).
Proof.
  intros Hv H1 H2. unfold readaco. cbn [put_words].
  rewrite (bind_Ret _ _ _ _ _ (readword_bytes P v bs o e n Hv)).
  apply is_word_spec in Hv. destruct (Z.eqb_spec v (-1)); [lia|].
  rewrite (bind_Ret _ _ _ _ _ (eputs_World _ _ _ _ _)).
  destruct (Z.eqb_spec v 1); [contradiction|].
  destruct (Z.eqb_spec v 2); [contradiction|].
  unfold bind, eputs, exit, add_stderr. cbn [stdin stdout stderr allocs].
  unfold version_error. now rewrite !string_app_assoc.
Qed.

(** X13.  The input is always read as two record sets.  A whole version
    1 file followed by one more word that is neither 1 nor 2 is not
    converted: the second call of [readaco] takes the word for a version,
    the run ends with status 1 and "Unknown ACO file version", and nothing
    is written to standard output. *)
Theorem trailing_word_is_fatal (recs : list rgbrec) (x : Z) bs o e n :
  forallb rgbrec_ok recs = true ->
  is_word (Z.of_nat (length recs)) = true ->
  malloc_ok P n (sizeof_aco P) = true ->
  malloc_ok P (S n)
    (size_mul P (sizeof_acoentry P) (Z.of_nat (length recs))) = true ->
  is_word x = true -> x <> 1 -> x <> 2 ->
  main P (World (put_words (rgb_file 1 recs) (put_words [x] bs)) o e n)
  = Exit 1
      (World bs o
         (e +:+ version_notice 1 +:+ count_notice (Z.of_nat (length recs))
          +:+ "reading ACO stream version:" +:+ version_error x)
         (S (S n))).
Proof.
  intros Hrecs Hcount Hm1 Hm2 Hx H1 H2.
  assert (Hdup : (1 =? 2) = true -> forall k sz, malloc_ok P k sz = true)
    by discriminate.
  pose proof (readaco_exact 1 recs (put_words [x] bs) o e n eq_refl Hrecs Hcount
                Hm1 Hm2 Hdup) as E.
  cbn [Z.eqb Pos.eqb] in E. rewrite Nat.add_0_r in E.
  unfold main. rewrite (bind_Ret _ _ _ _ _ E).
  rewrite (bind_Exit _ _ _ _ _ (readaco_unknown_version x bs o _ _ Hx H1 H2)).
  now rewrite !string_app_assoc.
Qed.

Lemma first_skipped (recs : list record) :
  forallb is_rgb recs = false ->
  exists k rc, recs !! k = Some rc /\ is_rgb rc = false.
Proof.
  induction recs as [|rc recs IH]; [discriminate|]. cbn [forallb].
  destruct (is_rgb rc) eqn:E.
  - intros H. destruct (IH H) as (k & rc' & Hk & Hrc). now exists (S k), rc'.
  - intros _. now exists O, rc.
Qed.

(** The single loop over a range of slots one of which was never stored
    into. *)
Lemma emit_seq_gap (a : aco) (m : nat) : forall (j : nat) w,
  (exists k, (j <= k < j + m)%nat /\ color a !! k = Some None) ->
  exists w', emit_seq P m a (Z.of_nat j) w = Undefined w'.
Proof.
  induction m as [|m IH]; intros j w (k & Hk & Hgap); [lia|].
  cbn [emit_seq]. unfold bind, print_color. rewrite Nat2Z.id.
  destruct (color a !! j) as [[x|]|] eqn:Ej; [|eexists; reflexivity..].
  unfold puts.
  replace (Z.of_nat j + 1) with (Z.of_nat (S j)) by lia.
  apply IH. exists k. split; [|exact Hgap].
  assert (k <> j) by (intros ->; congruence). lia.
Qed.

(** X14.  A file with a colour that is not RGB is never converted
    cleanly.  For every version 1 or 2 record set with at least one such
    record, the emitter comes to read the slot of a skipped record, which
    nothing was stored into, and what the run does from there on is
    undefined. *)
Theorem skipped_record_reaches_emitter (v : Z) (recs : list record) o e n :
  (v =? 1) || (v =? 2) = true ->
  forallb record_ok recs = true ->
  is_word (Z.of_nat (length recs)) = true ->
  malloc_ok P n (sizeof_aco P) = true ->
  malloc_ok P (S n)
    (size_mul P (sizeof_acoentry P) (Z.of_nat (length recs))) = true ->
  forallb is_rgb recs = false ->
  exists w', main P (World (put_words (record_file v recs) []) o e n) = Undefined w'.
Proof.
  intros Hv Hrecs Hcount Hm1 Hm2 Hskip.
  destruct (readaco_record_file P v recs [] o e n Hv Hrecs Hcount Hm1 Hm2)
    as (slots & n' & E & Hslots).
  destruct (first_skipped recs Hskip) as (k & rc & Hk & Hrc).
  destruct (Forall2_lookup_l _ _ _ _ _ Hslots Hk) as (slot & Hslot & Hrel).
  destruct rc as [c|]; [discriminate Hrc|]. cbn [record_slot] in Hrel. subst slot.
  unfold main. rewrite (bind_Ret _ _ _ _ _ E).
  rewrite (bind_Ret _ _ _ _ _ (readaco_eof P _ _ _)).
  rewrite (bind_Ret _ _ _ _ _ (eputs_World _ _ _ _ _)).
  set (a := Aco v (Z.of_nat (length recs)) slots).
  set (w := World [] o _ n').
  assert (Hgen : exists w', gengpl P a w = Undefined w').
  { rewrite gengpl_sequential_eq. unfold gengpl_sequential, bind, puts.
    apply (emit_seq_gap a (Z.to_nat (len a)) 0). exists k. split; [|exact Hslot].
    unfold a. cbn [len]. rewrite Nat2Z.id.
    apply lookup_lt_Some in Hk. lia. }
  destruct Hgen as (w' & Hgen). exists w'. unfold bind at 1. now rewrite Hgen.
Qed.

End Coverage.

(** ** These statements at work on the sample streams *)

Lemma main_exit_without_output_witness :
  main glibc_lp64 (start (put_words [3] v1_file))
  = Exit 1 (World v1_file EmptyString
              ("reading ACO stream version:" +:+ version_error 3) 0) /\
  1 = 1 /\
  stdout (World v1_file EmptyString
            ("reading ACO stream version:" +:+ version_error 3) 0)
  = stdout (start (put_words [3] v1_file)) /\
  exists t,
    stderr (World v1_file EmptyString
              ("reading ACO stream version:" +:+ version_error 3) 0)
    = stderr (start (put_words [3] v1_file)) +:+ t.
Proof.
  assert (H : main glibc_lp64 (start (put_words [3] v1_file))
              = Exit 1 (World v1_file EmptyString
                          ("reading ACO stream version:" +:+ version_error 3) 0))
    by (vm_compute; reflexivity).
  split; [exact H|].
  exact (proj1 (main_exit_without_output glibc_lp64) _ _ _ H).
Defined.

Lemma readaco_palette_invariant_witness :
  readaco glibc_lp64 (start named_file)
  = Ret (Some (Aco 2 1 [Some (AcoEntry 18 86 154 (Some "Re"))]))
      (World [] EmptyString (version_notice 2 +:+ count_notice 1) 3) /\
  forall k e,
    [Some (AcoEntry 18 86 154 (Some "Re"))] !! k = Some (Some e) -> entry_ok 2 e.
Proof.
  assert (H : readaco glibc_lp64 (start named_file)
              = Ret (Some (Aco 2 1 [Some (AcoEntry 18 86 154 (Some "Re"))]))
                  (World [] EmptyString (version_notice 2 +:+ count_notice 1) 3))
    by (vm_compute; reflexivity).
  split; [exact H|].
  exact (proj2 (proj2 (proj2 (readaco_palette_invariant glibc_lp64 _ _ _ H)))).
Defined.

Lemma truncated_file_is_refused_witness :
  forallb record_ok skip_records = true /\
  (2 <= 9 < length (record_file 1 skip_records))%nat /\
  eof_exit (readaco glibc_lp64
              (World (put_words (take 9 (record_file 1 skip_records)) [])
                 EmptyString EmptyString 0)).
Proof.
  split; [reflexivity|]. split; [cbn; lia|].
  apply (truncated_file_is_refused glibc_lp64 1 skip_records 9
           EmptyString EmptyString 0); first [reflexivity | cbn; lia].
Defined.

Lemma main_converts_version1_witness :
  forallb rgbrec_ok sample_recs = true /\
  main glibc_lp64 (World (put_words (rgb_file 1 sample_recs) []) EmptyString
                     EmptyString 0)
  = Ret 0
      (World [] (EmptyString +:+ header
                 +:+ color_lines glibc_lp64 (map (entry_of 1) sample_recs))
         (EmptyString +:+ version_notice 1 +:+ count_notice 2
          +:+ "Generating GPL..." +:+ nl +:+ "Done." +:+ nl) 2) /\
  color_lines glibc_lp64 (map (entry_of 1) sample_recs)
  = nl +:+ "18 86 154 (null)" +:+ nl +:+ "255 0 1 (null)".
Proof.
  split; [reflexivity|]. split; [|vm_compute; reflexivity].
  apply (main_converts_version1 glibc_lp64 sample_recs EmptyString EmptyString 0);
    reflexivity.
Defined.

Lemma main_converts_second_set_witness :
  (forall k sz, malloc_ok ample_heap k sz = true) /\
  exists n',
    main ample_heap
      (World (put_words (rgb_file 1 sample_recs)
                (put_words (rgb_file 2 [sample_rec]) [x07]))
         EmptyString EmptyString 0)
    = Ret 0
        (World [x07] (EmptyString +:+ header
                   +:+ color_lines ample_heap (map (entry_of 2) [sample_rec]))
           (EmptyString +:+ version_notice 1 +:+ count_notice 2
            +:+ version_notice 2 +:+ count_notice 1
            +:+ "Generating GPL..." +:+ nl +:+ "Done." +:+ nl) n').
Proof.
  split; [intros; reflexivity|].
  apply (main_converts_second_set ample_heap 1 2 sample_recs [sample_rec] [x07]
           EmptyString EmptyString 0); first [reflexivity | intros; reflexivity].
Defined.

Lemma version2_names_witness :
  forallb rgbrec_ok [sample_rec; cut_rec] = true /\
  readaco ample_heap
    (World (put_words (rgb_file 2 [sample_rec; cut_rec]) []) EmptyString
       EmptyString 0)
  = Ret (Some (Aco 2 2 [Some (AcoEntry 18 86 154 (Some "R e"));
                        Some (AcoEntry 255 128 0 (Some "A"))]))
      (World [] EmptyString (version_notice 2 +:+ count_notice 2) 4).
Proof.
  split; [reflexivity|].
  exact (proj1 (version2_names ample_heap [sample_rec; cut_rec] EmptyString
                  EmptyString 0 (fun _ _ => eq_refl) eq_refl eq_refl)).
Defined.

Lemma zero_colours_allocation_witness :
  malloc_ok glibc_lp64 0 (sizeof_aco glibc_lp64) = true /\
  readaco glibc_lp64 (World (put_words [1; 0] []) EmptyString EmptyString 0)
  = Ret (Some (Aco 1 0 []))
      (World [] EmptyString (EmptyString +:+ version_notice 1 +:+ count_notice 0) 2).
Proof.
  split; [reflexivity|].
  exact (proj2 (zero_colours_allocation glibc_lp64 1 [] EmptyString EmptyString 0
                  eq_refl eq_refl)).
Defined.


Lemma name_length_zero_witness :
  forallb is_word [7; 1; 2; 3; 4; 5; 6] = true /\ 7 <> 0 /\
  convertcolor glibc_lp64 2 256
    (World (put_words [7; 1; 2; 3; 4; 5; 0; 6] [x07]) EmptyString EmptyString 0)
  = Ret Skipped
      (World (put_words [6] [x07]) EmptyString (EmptyString +:+ skip_notice 7) 0).
Proof.
  split; [reflexivity|]. split; [lia|].
  apply (name_length_zero glibc_lp64 7 1 2 3 4 5 6 [x07] EmptyString EmptyString 0);
    first [reflexivity | lia].
Defined.

Lemma trailing_word_is_fatal_witness :
  forallb rgbrec_ok sample_recs = true /\ is_word 0xfeff = true /\
  0xfeff <> 1 /\ 0xfeff <> 2 /\
  main glibc_lp64
    (World (put_words (rgb_file 1 sample_recs) (put_words [0xfeff] []))
       EmptyString EmptyString 0)
  = Exit 1
      (World [] EmptyString
         (EmptyString +:+ version_notice 1 +:+ count_notice 2
          +:+ "reading ACO stream version:" +:+ version_error 0xfeff) 2).
Proof.
  split; [reflexivity|]. split; [reflexivity|]. split; [lia|]. split; [lia|].
  apply (trailing_word_is_fatal glibc_lp64 sample_recs 0xfeff [] EmptyString
           EmptyString 0); first [reflexivity | lia].
Defined.

Lemma skipped_record_reaches_emitter_witness :
  forallb record_ok skip_records = true /\
  forallb is_rgb skip_records = false /\
  exists w',
    main glibc_lp64
      (World (put_words (record_file 1 skip_records) []) EmptyString EmptyString 0)
    = Undefined w'.
Proof.
  split; [reflexivity|]. split; [reflexivity|].
  apply (skipped_record_reaches_emitter glibc_lp64 1 skip_records EmptyString
           EmptyString 0); reflexivity.
Defined.
